(** * mock-data: the table mocking pipeline of [worker.go]

    A shallow embedding of [worker.go] and the properties of its
    classification, row loading and constraint life cycle.

    The Go code talks to a database, a value generator and a logger.  Those
    collaborators are not part of [worker.go]; they are collected in the record
    [Externals] and every definition below is parametrised by it.  What the
    program asks of them is recorded, call by call, in a trace of [Event]s. *)

From Stdlib Require Import String Ascii List ZArith Lia Bool Arith.
Import ListNotations.
Open Scope string_scope.
Open Scope list_scope.

Infix "@@" := String.append (at level 60, right associativity).

(** ** Strings built by [fmt.Sprintf] *)

(** The double quote character (code 34). *)
Definition dq : string := String (ascii_of_nat 34) EmptyString.

(** [strings.Join(elems, sep)]. *)
Definition Join (elems : list string) (sep : string) : string :=
  String.concat sep elems.

(** [strings.HasPrefix(s, prefix)]. *)
Definition HasPrefix (s pre : string) : bool := String.prefix pre s.

(** ** Data *)

(** Modelled from the spec: the struct [DBTables] is declared outside
    [worker.go]; the code reads its fields [Schema] and [Table]
    (TableDescriptor: schema name, table name). *)
Record DBTables := mkDBTables { Schema : string; Table : string }.

(** Modelled from the spec: the struct [DBColumns] is declared outside
    [worker.go]; the code reads its fields [Column], [Datatype] and
    [Sequence] (ColumnDescriptor: column name, declared datatype, default
    expression of a sequence-backed column). *)
Record DBColumns := mkDBColumns
  { Column : string; Datatype : string; Sequence : string }.

(** [type TableCollection struct { DBTables; Columns []DBColumns }] *)
Record TableCollection := mkTableCollection
  { Tbl : DBTables; Columns : list DBColumns }.

(** [cmdOptions], as far as [worker.go] reads it. *)
Record Options := mkOptions
  { Rows : Z; IgnoreConstraint : bool; DontPrompt : bool }.

(** The read-only globals of the run. *)
Record Config := mkConfig
  { cmdOptions : Options;
    GreenplumOrPostgres : string;
    programName : string }.

(** [var delimiter = "$"] and [progressBarMsg]. *)
Definition delimiter : string := "$".
Definition progressBarMsg : string := "Mocking Table %s".

(** ** Events: what the program asks of its collaborators *)

Inductive Level := LDebug | LInfo | LWarn.

(** An argument of a log call: rendered by the logger, recorded as given. *)
Inductive Arg := AStr (s : string) | AInt (z : Z).

Inductive Event :=
| EvLog (lvl : Level) (fmt : string) (args : list Arg)
| EvConfirm
| EvBackupDDL
| EvRemoveConstraints (tab : string)
| EvConnectDB
| EvCloseDB
| EvBuildData (datatype : string) (res : string + string)
| EvCopyFrom (payload stmt : string) (err : option string)
| EvExecuteDB (query : string) (err : option string)
| EvFixConstraints.

(** How a run can end before its last statement. *)
Inductive Halted :=
| HFatalf (fmt : string) (args : list Arg)   (* [Fatalf] of [worker.go] *)
| HDied (why : string)                       (* exit inside a collaborator *)
| HPanic (why : string).                     (* Go run-time panic *)

Inductive Res (A : Type) :=
| Ok (a : A)
| Halt (h : Halted).
Arguments Ok {A} a.
Arguments Halt {A} h.

(** ** The collaborators

    [W] is the state of everything outside the program (database, random
    generator, terminal).  An error is its message, [fmt.Sprint(err)]; a [nil]
    error is [None].  A procedure that returns nothing may still end the
    process from the inside, which is its [Some why].

    [BuildData] is taken together with [fmt.Sprintf("%v", d)], the only use
    [CommitData] makes of the generated value: [inl] is the rendered literal,
    [inr] the error.  The two introspection queries read a catalogue that the
    program never alters, so they are functions of their arguments. *)
Record Externals := mkExternals
  { W : Type;
    BuildData : string -> W -> (string + string) * W;
    CopyFrom : string -> string -> W -> option string * W;
    ExecuteDB : string -> W -> option string * W;
    ConnectDB : W -> option string * W;
    CloseDB : W -> W;
    BackupDDL : W -> option string * W;
    RemoveConstraints : string -> W -> option string * W;
    FixConstraints : W -> option string * W;
    YesOrNoConfirmation : W -> option string * W;
    columnExtractorPostgres : string -> string -> list DBColumns;
    columnExtractorGPDB : string -> string -> list DBColumns }.

(** ** Pure helpers of [worker.go] *)

(** [isItSerialDatatype] *)
Definition isItSerialDatatype (c : DBColumns) : bool :=
  if HasPrefix (Sequence c) "nextval" then true else false.

(** [GenerateTableName]: the schema and the table, each in double quotes,
    joined by a dot. *)
Definition GenerateTableName (tab schema : string) : string :=
  dq @@ schema @@ dq @@ "." @@ dq @@ tab @@ dq.

(** The statement [CopyData] builds with [fmt.Sprintf]; the Go literal is a
    raw string, so [\x01] stays four characters. *)
Definition copyStatment (tab : string) (col : list string) : string :=
  "COPY " @@ tab @@ "(" @@ dq @@ Join col (dq @@ "," @@ dq) @@ dq
  @@ ") FROM STDIN WITH CSV DELIMITER '" @@ delimiter @@ "' QUOTE e'\x01'".

(** The query of [addDataIfItsASerialDatatype]. *)
Definition insertQuery (t : string) : string :=
  "INSERT INTO " @@ t @@ " default values;".

(** The message prefix by which [CommitData] recognises a datatype without a
    generator. *)
Definition unsupportedPrefix : string := "unsupported datatypes found".

(** ASCII letters and digits. *)
Definition isAlphaNumeric (c : ascii) : bool :=
  let n := nat_of_ascii c in
  ((48 <=? n) && (n <=? 57) || (65 <=? n) && (n <=? 90)
   || (97 <=? n) && (n <=? 122))%nat.

(** No double quote occurs in [s]. *)
Fixpoint quoteFree (s : string) : bool :=
  match s with
  | EmptyString => true
  | String c rest => negb (Ascii.eqb c (ascii_of_nat 34)) && quoteFree rest
  end.

(** ** A small database to run the program on

    The world is the number of generator calls made so far.  The datatype
    [geometry] has no generator; [flaky] loses its generator after two
    calls; [jsonb] breaks the generator; the literal of [bad] is refused by
    the transport. *)
Definition sampleBuildData (datatype : string) (w : nat)
    : (string + string) * nat :=
  (if String.eqb datatype "geometry"
   then inr "unsupported datatypes found: geometry"
   else if String.eqb datatype "flaky"
   then if (w <? 2)%nat then inl "7"
        else inr "unsupported datatypes found: flaky"
   else if String.eqb datatype "jsonb" then inr "generator out of entropy"
   else if String.eqb datatype "bad" then inl "bad"
   else inl "v",
   S w).

Definition sampleCopyFrom (payload stmt : string) (w : nat)
    : option string * nat :=
  (if String.eqb payload "bad" then Some "connection reset" else None, w).

Definition sampleColumns (schema table : string) : list DBColumns :=
  if String.eqb table "users" then
    [mkDBColumns "id" "integer" "nextval('users_id_seq'::regclass)";
     mkDBColumns "name" "text" EmptyString;
     mkDBColumns "age" "integer" EmptyString]
  else if String.eqb table "counter" then
    [mkDBColumns "id" "integer" "nextval('counter_id_seq'::regclass)"]
  else if String.eqb table "pairs" then
    [mkDBColumns "a" "integer" "nextval('pairs_a_seq'::regclass)";
     mkDBColumns "b" "integer" "nextval('pairs_b_seq'::regclass)"]
  else if String.eqb table "orders" then
    [mkDBColumns "total" "numeric" EmptyString;
     mkDBColumns "shape" "geometry" EmptyString]
  else if String.eqb table "events" then
    [mkDBColumns "at" "flaky" EmptyString]
  else if String.eqb table "docs" then
    [mkDBColumns "body" "jsonb" EmptyString]
  else if String.eqb table "blobs" then
    [mkDBColumns "data" "bad" EmptyString]
  else [].

Definition sampleE : Externals :=
  mkExternals nat sampleBuildData sampleCopyFrom
    (fun _ w => (None, w)) (fun w => (None, w)) (fun w => w)
    (fun w => (None, w)) (fun _ w => (None, w)) (fun w => (None, w))
    (fun w => (None, w)) sampleColumns sampleColumns.

Definition sampleCfg (rows : Z) : Config :=
  mkConfig (mkOptions rows false true) "postgres" "mockd".

Definition users : DBTables := mkDBTables "public" "users".
Definition counter : DBTables := mkDBTables "public" "counter".
Definition pairs : DBTables := mkDBTables "public" "pairs".
Definition orders : DBTables := mkDBTables "public" "orders".
Definition events : DBTables := mkDBTables "public" "events".
Definition docs : DBTables := mkDBTables "public" "docs".
Definition blobs : DBTables := mkDBTables "public" "blobs".

(** The same database with a disk that is full: every insertion fails. *)
Definition fullDiskE : Externals :=
  mkExternals nat sampleBuildData sampleCopyFrom
    (fun _ w => (Some "disk full", w)) (fun w => (None, w)) (fun w => w)
    (fun w => (None, w)) (fun _ w => (None, w)) (fun w => (None, w))
    (fun w => (None, w)) sampleColumns sampleColumns.

(** The table collections classification builds for some of these tables. *)
Definition usersTC : TableCollection :=
  mkTableCollection users
    [mkDBColumns "name" "text" EmptyString;
     mkDBColumns "age" "integer" EmptyString].
Definition eventsTC : TableCollection :=
  mkTableCollection events [mkDBColumns "at" "flaky" EmptyString].
Definition blobsTC : TableCollection :=
  mkTableCollection blobs [mkDBColumns "data" "bad" EmptyString].

Section Worker.

Variable E : Externals.
Variable cfg : Config.

(** ** State and the monad of the run

    [skippedTab] and [oneColumnTable] are the two package-level slices; both
    are [nil] when the process starts. *)
Record St := mkSt
  { world : W E;
    skippedTab : list string;
    oneColumnTable : list string }.

Definition startSt (w : W E) : St := mkSt w [] [].

Definition M (A : Type) : Type := St -> Res A * St * list Event.

Definition ret {A} (a : A) : M A := fun s => (Ok a, s, []).

Definition bind {A B} (m : M A) (f : A -> M B) : M B := fun s =>
  match m s with
  | (Ok a, s1, t1) =>
      match f a s1 with (r, s2, t2) => (r, s2, t1 ++ t2) end
  | (Halt h, s1, t1) => (Halt h, s1, t1)
  end.

Notation "x <- m ;; k" := (bind m (fun x => k))
  (at level 100, m at next level, right associativity).
Notation "m ;;; k" := (bind m (fun _ => k))
  (at level 100, right associativity).

(** Logging. *)
Definition logf (lvl : Level) (fmt : string) (args : list Arg) : M unit :=
  fun s => (Ok tt, s, [EvLog lvl fmt args]).
Definition Debugf := logf LDebug.
Definition Infof := logf LInfo.
Definition Warnf := logf LWarn.

(** Modelled from the spec: [Fatalf] is defined outside [worker.go]; a fatal
    error ends the whole run at the point where it is raised. *)
Definition Fatalf {A} (fmt : string) (args : list Arg) : M A :=
  fun s => (Halt (HFatalf fmt args), s, []).

(** A collaborator that returns nothing. *)
Definition procedure (e : Event) (f : W E -> option string * W E) : M unit :=
  fun s =>
    match f (world s) with
    | (None, w) => (Ok tt, mkSt w (skippedTab s) (oneColumnTable s), [e])
    | (Some why, w) =>
        (Halt (HDied why), mkSt w (skippedTab s) (oneColumnTable s), [e])
    end.

Definition callBuildData (datatype : string) : M (string + string) :=
  fun s =>
    match BuildData E datatype (world s) with
    | (res, w) =>
        (Ok res, mkSt w (skippedTab s) (oneColumnTable s),
         [EvBuildData datatype res])
    end.

Definition callCopyFrom (payload stmt : string) : M (option string) :=
  fun s =>
    match CopyFrom E payload stmt (world s) with
    | (err, w) =>
        (Ok err, mkSt w (skippedTab s) (oneColumnTable s),
         [EvCopyFrom payload stmt err])
    end.

Definition callExecuteDB (query : string) : M (option string) :=
  fun s =>
    match ExecuteDB E query (world s) with
    | (err, w) =>
        (Ok err, mkSt w (skippedTab s) (oneColumnTable s),
         [EvExecuteDB query err])
    end.

Definition callCloseDB : M unit :=
  fun s =>
    (Ok tt, mkSt (CloseDB E (world s)) (skippedTab s) (oneColumnTable s),
     [EvCloseDB]).

(** [skippedTab = append(skippedTab, tab)] *)
Definition appendSkippedTab (tab : string) : M unit :=
  fun s => (Ok tt, mkSt (world s) (skippedTab s ++ [tab]) (oneColumnTable s), []).

(** [oneColumnTable = append(oneColumnTable, tab)] *)
Definition appendOneColumnTable (tab : string) : M unit :=
  fun s => (Ok tt, mkSt (world s) (skippedTab s) (oneColumnTable s ++ [tab]), []).

Definition getSkippedTab : M (list string) :=
  fun s => (Ok (skippedTab s), s, []).
Definition getOneColumnTable : M (list string) :=
  fun s => (Ok (oneColumnTable s), s, []).

(** [for _, x := range xs { body }] *)
Fixpoint forEach {A} (xs : list A) (body : A -> M unit) : M unit :=
  match xs with
  | [] => ret tt
  | x :: rest => body x ;;; forEach rest body
  end.

(** ** The functions of [worker.go]

    The progress bar ([StartProgressBar], [bar.Add]) only draws; it is left
    out. *)

(** [skipTablesWarning] *)
Definition skipTablesWarning : M unit :=
  skipped <- getSkippedTab ;;
  if (0 <? length skipped)%nat then
    Warnf "These tables are skipped since these data types are not supported by %s: %s"
      [AStr (programName cfg); AStr (Join skipped ",")]
  else ret tt.

(** [checkIfOneColumnIsASerialDatatype]; [c[0]] panics on an empty slice. *)
Definition checkIfOneColumnIsASerialDatatype
    (t : DBTables) (c : list DBColumns) : M unit :=
  let tab := GenerateTableName (Table t) (Schema t) in
  match c with
  | [] => fun s => (Halt (HPanic "index out of range"), s, [])
  | column :: _ =>
      Debugf "Check if the table %s which has only a single column is of serial data type"
        [AStr tab] ;;;
      if isItSerialDatatype column then appendOneColumnTable tab else ret tt
  end.

(** The inner loop of [columnExtractor]:
    [for _, c := range columns { if !isItSerialDatatype(c) { tempColumns = append(tempColumns, c) } }] *)
Definition collectColumns (columns : list DBColumns) : list DBColumns :=
  fold_left
    (fun tempColumns c =>
       if negb (isItSerialDatatype c) then tempColumns ++ [c] else tempColumns)
    columns [].

(** The columns the dialect's introspection query returns for [t]. *)
Definition extractColumns (t : DBTables) : list DBColumns :=
  if String.eqb (GreenplumOrPostgres cfg) "postgres"
  then columnExtractorPostgres E (dq @@ Schema t @@ dq) (Table t)
  else columnExtractorGPDB E (dq @@ Schema t @@ dq) (Table t).

(** The loop of [columnExtractor], [collection] being its accumulator. *)
Fixpoint columnExtractorLoop
    (tables : list DBTables) (collection : list TableCollection)
    : M (list TableCollection) :=
  match tables with
  | [] => ret collection
  | t :: rest =>
      let columns := extractColumns t in
      (if (length columns =? 1)%nat
       then checkIfOneColumnIsASerialDatatype t columns
       else ret tt) ;;;
      let tempColumns := collectColumns columns in
      let collection :=
        if (0 <? length tempColumns)%nat
        then collection ++ [mkTableCollection t tempColumns]
        else collection in
      columnExtractorLoop rest collection
  end.

(** [columnExtractor] *)
Definition columnExtractor (tables : list DBTables) : M (list TableCollection) :=
  Infof "Extracting the columns and data type information" [] ;;;
  columnExtractorLoop tables [].

(** [CopyData] *)
Definition CopyData (tab : string) (col data : list string) : M unit :=
  let copyStatment := copyStatment tab col in
  err <- callCopyFrom (Join data delimiter) copyStatment ;;
  match err with
  | Some e =>
      Debugf "Table: %s" [AStr tab] ;;;
      Debugf "Copy Statement: %s" [AStr copyStatment] ;;;
      Debugf "Data: %s" [AStr (Join data delimiter)] ;;;
      Fatalf "Error during committing data: %v" [AStr e]
  | None => ret tt
  end.

(** The column loop of [CommitData] for one row.  [None] is
    [break DataTypePickerLoop]; [Some (col, data)] is the finished row. *)
Fixpoint buildRow (tab : string) (cs : list DBColumns) (col data : list string)
    : M (option (list string * list string)) :=
  match cs with
  | [] => ret (Some (col, data))
  | c :: rest =>
      res <- callBuildData (Datatype c) ;;
      match res with
      | inr err =>
          if HasPrefix err unsupportedPrefix then
            Debugf "Table %s skipped, since the column %s, had unknown data type %s: %v"
              [AStr tab; AStr (Column c); AStr (Datatype c); AStr err] ;;;
            appendSkippedTab tab ;;;
            ret None
          else
            Fatalf "Error when building data for table %s: %v"
              [AStr tab; AStr err]
      | inl d => buildRow tab rest (col ++ [Column c]) (data ++ [d])
      end
  end.

(** The row loop of [CommitData]: [n] iterations are left. *)
Fixpoint rowLoop (tab : string) (cols : list DBColumns) (n : nat) : M unit :=
  match n with
  | O => ret tt
  | S n' =>
      row <- buildRow tab cols [] [] ;;
      match row with
      | None => ret tt
      | Some (col, data) => CopyData tab col data ;;; rowLoop tab cols n'
      end
  end.

(** [CommitData].  [defer db.Close()] runs when the function returns; a
    fatal error leaves the process before that. *)
Definition CommitData (t : TableCollection) : M unit :=
  let tab := GenerateTableName (Table (Tbl t)) (Schema (Tbl t)) in
  Debugf "Building and loading mock data to the table %s" [AStr tab] ;;;
  procedure EvConnectDB (ConnectDB E) ;;;
  rowLoop tab (Columns t) (Z.to_nat (Rows (cmdOptions cfg))) ;;;
  callCloseDB.

(** The loop [for total < cmdOptions.Rows] of [addDataIfItsASerialDatatype]. *)
Fixpoint insertLoop (t : string) (n : nat) : M unit :=
  match n with
  | O => ret tt
  | S n' =>
      err <- callExecuteDB (insertQuery t) ;;
      match err with
      | Some e =>
          Fatalf "Error when loading the serial datatype for table %s, err: %v"
            [AStr t; AStr e]
      | None => insertLoop t n'
      end
  end.

(** [addDataIfItsASerialDatatype] *)
Definition addDataIfItsASerialDatatype : M unit :=
  tabs <- getOneColumnTable ;;
  forEach tabs (fun t =>
    Debugf "Loading data for one column serial data type table %s" [AStr t] ;;;
    insertLoop t (Z.to_nat (Rows (cmdOptions cfg)))).

(** The table loop of [BackupConstraintsAndStartDataLoading]. *)
Definition loadTable (t : TableCollection) : M unit :=
  let table := GenerateTableName (Table (Tbl t)) (Schema (Tbl t)) in
  procedure (EvRemoveConstraints table) (RemoveConstraints E table) ;;;
  CommitData t.

Definition loadTables (tables : list TableCollection) : M unit :=
  forEach tables loadTable.

(** [BackupConstraintsAndStartDataLoading] *)
Definition BackupConstraintsAndStartDataLoading
    (tables : list TableCollection) : M unit :=
  procedure EvBackupDDL (BackupDDL E) ;;;
  let totalTables := length tables in
  Infof "Total numbers of tables to mock: %d" [AInt (Z.of_nat totalTables)] ;;;
  loadTables tables ;;;
  addDataIfItsASerialDatatype ;;;
  skipTablesWarning ;;;
  Infof "Completed loading mock data to %d tables" [AInt (Z.of_nat totalTables)].

(** [tableMocker] *)
Definition tableMocker (tables : list DBTables) : M unit :=
  Infof "Beginning the mocking process for the tables" [] ;;;
  (if negb (DontPrompt (cmdOptions cfg))
   then procedure EvConfirm (YesOrNoConfirmation E)
   else ret tt) ;;;
  columns <- columnExtractor tables ;;
  if (0 <? length columns)%nat
  then BackupConstraintsAndStartDataLoading columns
  else Warnf "No columns available to mock the data, closing the program" [].

(** [MockTable] *)
Definition MockTable (tables : list DBTables) : M unit :=
  let totalTables := length tables in
  if (0 <? totalTables)%nat then
    Debugf "Total number of tables to mock: %d" [AInt (Z.of_nat totalTables)] ;;;
    tableMocker tables ;;;
    if negb (IgnoreConstraint (cmdOptions cfg))
    then procedure EvFixConstraints (FixConstraints E)
    else ret tt
  else
    Warnf "No table available to mock the data, closing the program" [].

(** ** Reading a run *)

Definition resultOf {A} (x : Res A * St * list Event) : Res A := fst (fst x).
Definition stateOf {A} (x : Res A * St * list Event) : St := snd (fst x).
Definition traceOf {A} (x : Res A * St * list Event) : list Event := snd x.

(** The qualified name under which the program addresses a table. *)
Definition tabName (t : DBTables) : string :=
  GenerateTableName (Table t) (Schema t).

(** Kinds of events. *)
Definition isLog (e : Event) : bool :=
  match e with EvLog _ _ _ => true | _ => false end.
Definition isBuild (e : Event) : bool :=
  match e with EvBuildData _ _ => true | _ => false end.
Definition isFailedBuild (e : Event) : bool :=
  match e with EvBuildData _ (inr _) => true | _ => false end.
Definition isCopy (e : Event) : bool :=
  match e with EvCopyFrom _ _ _ => true | _ => false end.
Definition isExecute (e : Event) : bool :=
  match e with EvExecuteDB _ _ => true | _ => false end.
Definition isRemove (e : Event) : bool :=
  match e with EvRemoveConstraints _ => true | _ => false end.
Definition isBackup (e : Event) : bool :=
  match e with EvBackupDDL => true | _ => false end.
Definition isFix (e : Event) : bool :=
  match e with EvFixConstraints => true | _ => false end.

(** A failure that [worker.go] answers with [Fatalf] while loading a table:
    a generator error that is not the unsupported-datatype one, or an error
    of the bulk copy. *)
Definition isFatalFailure (e : Event) : bool :=
  match e with
  | EvBuildData _ (inr err) => negb (HasPrefix err unsupportedPrefix)
  | EvCopyFrom _ _ (Some _) => true
  | _ => false
  end.

(** The literals the generator returned and the payloads handed to the
    transport, in the order of the trace. *)
Definition generated (tr : list Event) : list string :=
  flat_map (fun e => match e with EvBuildData _ (inl v) => [v] | _ => [] end) tr.
Definition payloads (tr : list Event) : list string :=
  flat_map (fun e => match e with EvCopyFrom p _ _ => [p] | _ => [] end) tr.

(** The generator calls of one row whose values are [vs], and the copy that
    follows them. *)
Definition okBuilds (cs : list DBColumns) (vs : list string) : list Event :=
  map (fun cv => EvBuildData (Datatype (fst cv)) (inl (snd cv))) (combine cs vs).
Definition copyEvent (tab : string) (cols : list DBColumns) (vs : list string)
    (err : option string) : Event :=
  EvCopyFrom (Join vs delimiter) (copyStatment tab (map Column cols)) err.
Definition rowEvents (tab : string) (cols : list DBColumns) (vs : list string)
    : list Event :=
  okBuilds cols vs ++ [copyEvent tab cols vs None].

Definition skipLog (tab : string) (c : DBColumns) (err : string) : Event :=
  EvLog LDebug
    "Table %s skipped, since the column %s, had unknown data type %s: %v"
    [AStr tab; AStr (Column c); AStr (Datatype c); AStr err].
Definition copyReport (tab : string) (cols : list DBColumns) (vs : list string)
    : list Event :=
  [EvLog LDebug "Table: %s" [AStr tab];
   EvLog LDebug "Copy Statement: %s" [AStr (copyStatment tab (map Column cols))];
   EvLog LDebug "Data: %s" [AStr (Join vs delimiter)]].
Definition buildFatal (tab err : string) : Halted :=
  HFatalf "Error when building data for table %s: %v" [AStr tab; AStr err].
Definition copyFatal (err : string) : Halted :=
  HFatalf "Error during committing data: %v" [AStr err].

(** How the row loop of a table can end. *)
Inductive LoadEnd :=
| EndLoaded
| EndSkipped (vs : list string) (c : DBColumns) (err : string)
| EndBuildFatal (vs : list string) (c : DBColumns) (err : string)
| EndCopyFatal (vs : list string) (err : string).

Definition endEvents (tab : string) (cols : list DBColumns) (e : LoadEnd)
    : list Event :=
  match e with
  | EndLoaded => []
  | EndSkipped vs c err =>
      okBuilds cols vs ++ [EvBuildData (Datatype c) (inr err); skipLog tab c err]
  | EndBuildFatal vs c err =>
      okBuilds cols vs ++ [EvBuildData (Datatype c) (inr err)]
  | EndCopyFatal vs err =>
      okBuilds cols vs ++ copyEvent tab cols vs (Some err) :: copyReport tab cols vs
  end.

Definition loadTrace (tab : string) (cols : list DBColumns)
    (rows : list (list string)) (e : LoadEnd) : list Event :=
  flat_map (rowEvents tab cols) rows ++ endEvents tab cols e.

(** What [CommitData] emits after the row loop: the deferred [db.Close()]
    runs when the function returns, not when the process exits. *)
Definition closing (e : LoadEnd) : list Event :=
  match e with
  | EndLoaded | EndSkipped _ _ _ => [EvCloseDB]
  | EndBuildFatal _ _ _ | EndCopyFatal _ _ => []
  end.

(** The result and the skipped list that go with each end of a row loop of
    [n] iterations, started with the skipped list [sk0]. *)
Definition endsAs (tab : string) (cols : list DBColumns) (n : nat)
    (sk0 : list string) (r : Res unit) (sk1 : list string)
    (rows : list (list string)) (e : LoadEnd) : Prop :=
  match e with
  | EndLoaded => r = Ok tt /\ length rows = n /\ sk1 = sk0
  | EndSkipped vs c err =>
      r = Ok tt /\ (length rows < n)%nat /\
      nth_error cols (length vs) = Some c /\
      HasPrefix err unsupportedPrefix = true /\ sk1 = sk0 ++ [tab]
  | EndBuildFatal vs c err =>
      r = Halt (buildFatal tab err) /\ (length rows < n)%nat /\
      nth_error cols (length vs) = Some c /\
      HasPrefix err unsupportedPrefix = false /\ sk1 = sk0
  | EndCopyFatal vs err =>
      r = Halt (copyFatal err) /\ (length rows < n)%nat /\
      length vs = length cols /\ sk1 = sk0
  end.

Definition startLog (tab : string) : Event :=
  EvLog LDebug "Building and loading mock data to the table %s" [AStr tab].

(** What one table contributes to the classification. *)
Definition keptColumns (t : DBTables) : list DBColumns :=
  filter (fun c => negb (isItSerialDatatype c)) (extractColumns t).
Definition classified (t : DBTables) : list TableCollection :=
  if (0 <? length (keptColumns t))%nat
  then [mkTableCollection t (keptColumns t)] else [].
Definition registered (t : DBTables) : list string :=
  match extractColumns t with
  | [c] => if isItSerialDatatype c then [tabName t] else []
  | _ => []
  end.
Definition checkLog (t : DBTables) : list Event :=
  match extractColumns t with
  | [c] =>
      [EvLog LDebug
         "Check if the table %s which has only a single column is of serial data type"
         [AStr (tabName t)]]
  | _ => []
  end.

(** Every event of every run of [m] satisfies [Q]. *)
Definition emits {A} (Q : Event -> bool) (m : M A) : Prop :=
  forall s, forallb Q (traceOf (m s)) = true.

(** A fatal failure is the last thing a run asks of the outside world: the
    run ends in [Fatalf] and only log lines follow the failure. *)
Definition haltsOnFailure {A} (m : M A) : Prop :=
  forall s pre e post,
    traceOf (m s) = pre ++ e :: post ->
    isFatalFailure e = true ->
    (exists fmt args, resultOf (m s) = Halt (HFatalf fmt args)) /\
    forallb isLog post = true.

(** The DDL backup comes before any removal of constraints. *)
Definition backupFirst (tr : list Event) : Prop :=
  forall pre tab post,
    tr = pre ++ EvRemoveConstraints tab :: post -> In EvBackupDDL pre.

(** Every copy is a copy into one of the tables of the input, into its
    columns that are not sequence-backed, and the constraints of that table
    were removed before. *)
Definition removedBeforeWrite (tables : list DBTables) (tr : list Event) : Prop :=
  forall pre payload stmt err post,
    tr = pre ++ EvCopyFrom payload stmt err :: post ->
    exists t,
      In t tables /\
      stmt = copyStatment (tabName t) (map Column (keptColumns t)) /\
      In (EvRemoveConstraints (tabName t)) pre.

(** More kinds of events. *)
Definition isConfirm (e : Event) : bool :=
  match e with EvConfirm => true | _ => false end.
Definition isConnect (e : Event) : bool :=
  match e with EvConnectDB => true | _ => false end.
Definition isClose (e : Event) : bool :=
  match e with EvCloseDB => true | _ => false end.
Definition isFailedExecute (e : Event) : bool :=
  match e with EvExecuteDB _ (Some _) => true | _ => false end.

(** The table has a column that is not sequence-backed. *)
Definition hasKeptColumn (t : DBTables) : bool :=
  existsb (fun c => negb (isItSerialDatatype c)) (extractColumns t).

(** The insertions of a full load of the sequence-only table [t]. *)
Definition inserts (t : string) : list Event :=
  repeat (EvExecuteDB (insertQuery t) None) (Z.to_nat (Rows (cmdOptions cfg))).

(** What [skipTablesWarning] logs for the skipped list [skipped]. *)
Definition skipWarning (skipped : list string) : list Event :=
  if (0 <? length skipped)%nat then
    [EvLog LWarn
       "These tables are skipped since these data types are not supported by %s: %s"
       [AStr (programName cfg); AStr (Join skipped ",")]]
  else [].

(** The names of the tables of [tcs] whose mark is set, in the order of
    [tcs]. *)
Definition markedNames (tcs : list TableCollection) (marks : list bool)
    : list string :=
  map (fun p => tabName (Tbl (fst p)))
    (filter (fun p => snd p) (combine tcs marks)).

(** What the loader of sequence-only tables does for the table [t] when no
    insertion fails: its log line, then the insertions. *)
Definition loaderLog (t : string) : Event :=
  EvLog LDebug "Loading data for one column serial data type table %s" [AStr t].
Definition loaderEvents (t : string) : list Event :=
  loaderLog t :: inserts t.
Definition insertFatal (t err : string) : Halted :=
  HFatalf "Error when loading the serial datatype for table %s, err: %v"
    [AStr t; AStr err].

Definition isWarn (e : Event) : bool :=
  match e with EvLog LWarn _ _ => true | _ => false end.

(** The events that are not operations on the database: log lines, the
    confirmation prompt and the call that restores constraints. *)
Definition isQuiet (e : Event) : bool :=
  isLog e || isConfirm e || isFix e.

(** ** List facts used below *)

Lemma split_cases (P : Event -> bool) A x B pre e post :
  A ++ x :: B = pre ++ e :: post ->
  forallb (fun a => negb (P a)) A = true ->
  P e = true ->
  (pre = A /\ e = x /\ post = B) \/
  (exists pre2, pre = A ++ x :: pre2 /\ B = pre2 ++ e :: post).
Proof.
  revert pre. induction A as [|a A IH]; intros pre Heq HA He.
  - destruct pre as [|p pre]; simpl in Heq.
    + inversion Heq; subst. left; auto.
    + inversion Heq; subst. right. exists pre. auto.
  - simpl in HA. apply andb_true_iff in HA. destruct HA as [Ha HA].
    destruct pre as [|p pre]; simpl in Heq.
    + inversion Heq; subst. rewrite He in Ha. discriminate.
    + inversion Heq; subst.
      destruct (IH pre H1 HA He) as [(-> & -> & ->) | (pre2 & -> & ->)].
      * left; auto.
      * right. exists pre2. auto.
Qed.

Lemma no_split (P : Event -> bool) l pre e post :
  l = pre ++ e :: post ->
  forallb (fun a => negb (P a)) l = true ->
  P e = true -> False.
Proof.
  intros -> H He. rewrite forallb_app in H. apply andb_true_iff in H.
  destruct H as [_ H]. simpl in H. rewrite He in H. discriminate.
Qed.

Lemma forallb_weaken (P Q : Event -> bool) l :
  (forall e, P e = true -> Q e = true) ->
  forallb P l = true -> forallb Q l = true.
Proof.
  intros H. rewrite !forallb_forall. auto.
Qed.

(** ** Classification *)

Lemma collectColumns_from (columns acc : list DBColumns) :
  fold_left
    (fun tempColumns c =>
       if negb (isItSerialDatatype c) then tempColumns ++ [c] else tempColumns)
    columns acc
  = acc ++ filter (fun c => negb (isItSerialDatatype c)) columns.
Proof.
  revert acc. induction columns as [|c cs IH]; intros acc; simpl.
  - now rewrite app_nil_r.
  - rewrite IH. destruct (negb (isItSerialDatatype c)); simpl.
    + now rewrite <- app_assoc.
    + reflexivity.
Qed.

Lemma collectColumns_filter (columns : list DBColumns) :
  collectColumns columns
  = filter (fun c => negb (isItSerialDatatype c)) columns.
Proof. unfold collectColumns. now rewrite collectColumns_from. Qed.

Lemma HasPrefix_nextval (s : string) :
  HasPrefix s "nextval" = true <-> exists rest, s = "nextval" @@ rest.
Proof.
  unfold HasPrefix. split.
  - intros H.
    do 7 (destruct s as [|? s]; simpl in H;
          [discriminate H|];
          match type of H with
          | (if ?d then _ else _) = true =>
              destruct d as [E1|E1]; [symmetry in E1; subst | discriminate H]
          end).
    exists s. reflexivity.
  - intros [rest ->]. simpl. now destruct rest.
Qed.

Lemma isItSerialDatatype_prefix (c : DBColumns) :
  isItSerialDatatype c = HasPrefix (Sequence c) "nextval".
Proof. unfold isItSerialDatatype. now destruct (HasPrefix _ _). Qed.

Lemma checkIfOne_run (t : DBTables) (s : St) :
  (if (length (extractColumns t) =? 1)%nat
   then checkIfOneColumnIsASerialDatatype t (extractColumns t)
   else ret tt) s
  = (Ok tt,
     mkSt (world s) (skippedTab s) (oneColumnTable s ++ registered t),
     checkLog t).
Proof.
  unfold registered, checkLog, checkIfOneColumnIsASerialDatatype, tabName.
  destruct (extractColumns t) as [|c [|c' cs]]; simpl.
  - unfold ret. rewrite app_nil_r. now destruct s.
  - unfold bind, Debugf, logf, appendOneColumnTable, ret.
    destruct (isItSerialDatatype c); simpl.
    + reflexivity.
    + rewrite app_nil_r. now destruct s.
  - unfold ret. rewrite app_nil_r. now destruct s.
Qed.

Lemma columnExtractorLoop_run (tables : list DBTables) :
  forall collection s,
    columnExtractorLoop tables collection s
    = (Ok (collection ++ flat_map classified tables),
       mkSt (world s) (skippedTab s)
         (oneColumnTable s ++ flat_map registered tables),
       flat_map checkLog tables).
Proof.
  induction tables as [|t rest IH]; intros collection s; simpl.
  - unfold ret. rewrite !app_nil_r. now destruct s.
  - unfold bind at 1. rewrite checkIfOne_run. rewrite IH. simpl.
    rewrite collectColumns_filter. unfold classified, keptColumns.
    destruct (0 <? length _)%nat; simpl;
      now rewrite <- ?app_assoc.
Qed.

Lemma columnExtractor_run (tables : list DBTables) (s : St) :
  columnExtractor tables s
  = (Ok (flat_map classified tables),
     mkSt (world s) (skippedTab s)
       (oneColumnTable s ++ flat_map registered tables),
     EvLog LInfo "Extracting the columns and data type information" []
       :: flat_map checkLog tables).
Proof.
  unfold columnExtractor, bind, Infof, logf.
  now rewrite columnExtractorLoop_run.
Qed.

Lemma in_classified (tables : list DBTables) (tc : TableCollection) :
  In tc (flat_map classified tables) <->
  In (Tbl tc) tables /\ Columns tc = keptColumns (Tbl tc) /\ Columns tc <> [].
Proof.
  rewrite in_flat_map. unfold classified. split.
  - intros (t & Ht & Hin).
    destruct (0 <? length (keptColumns t))%nat eqn:Hlen; [|contradiction].
    destruct Hin as [<-|[]]. simpl. repeat split; auto.
    apply Nat.ltb_lt in Hlen. intros Hnil. rewrite Hnil in Hlen.
    simpl in Hlen. lia.
  - intros (Ht & Hc & Hne). exists (Tbl tc). split; auto.
    destruct (0 <? length (keptColumns (Tbl tc)))%nat eqn:Hlen.
    + left. destruct tc as [t cs]. simpl in *. now subst.
    + apply Nat.ltb_ge in Hlen. rewrite <- Hc in Hlen.
      destruct (Columns tc); [congruence | simpl in Hlen; lia].
Qed.

Lemma in_registered (tables : list DBTables) (x : string) :
  In x (flat_map registered tables) <->
  exists t c, In t tables /\ extractColumns t = [c] /\
              isItSerialDatatype c = true /\ x = tabName t.
Proof.
  rewrite in_flat_map. unfold registered. split.
  - intros (t & Ht & Hin).
    destruct (extractColumns t) as [|c [|c' cs]] eqn:Hc; try contradiction.
    destruct (isItSerialDatatype c) eqn:Hs; [|contradiction].
    destruct Hin as [<-|[]]. exists t, c. auto.
  - intros (t & c & Ht & Hc & Hs & ->). exists t. split; auto.
    rewrite Hc, Hs. now left.
Qed.

(** ** The history of one table load *)

Lemma okBuilds_cons c cs v vs :
  okBuilds (c :: cs) (v :: vs)
  = EvBuildData (Datatype c) (inl v) :: okBuilds cs vs.
Proof. reflexivity. Qed.

Lemma buildRow_spec (tab : string) (cs : list DBColumns) :
  forall col data s,
    let out := buildRow tab cs col data s in
    oneColumnTable (stateOf out) = oneColumnTable s /\
    ((exists vs,
         length vs = length cs /\
         resultOf out = Ok (Some (col ++ map Column cs, data ++ vs)) /\
         traceOf out = okBuilds cs vs /\
         skippedTab (stateOf out) = skippedTab s)
     \/ (exists vs c err,
         nth_error cs (length vs) = Some c /\
         HasPrefix err unsupportedPrefix = true /\
         resultOf out = Ok None /\
         traceOf out
         = okBuilds cs vs ++ [EvBuildData (Datatype c) (inr err); skipLog tab c err] /\
         skippedTab (stateOf out) = skippedTab s ++ [tab])
     \/ (exists vs c err,
         nth_error cs (length vs) = Some c /\
         HasPrefix err unsupportedPrefix = false /\
         resultOf out = Halt (buildFatal tab err) /\
         traceOf out = okBuilds cs vs ++ [EvBuildData (Datatype c) (inr err)] /\
         skippedTab (stateOf out) = skippedTab s)).
Proof.
  induction cs as [|c rest IH]; intros col data s; simpl.
  - split; [reflexivity|]. left. exists []. simpl.
    rewrite !app_nil_r. auto.
  - unfold bind, callBuildData.
    destruct (BuildData E (Datatype c) (world s)) as [[d|err] w]; simpl.
    + specialize (IH (col ++ [Column c]) (data ++ [d])
                     (mkSt w (skippedTab s) (oneColumnTable s))).
      destruct (buildRow tab rest (col ++ [Column c]) (data ++ [d])
                  (mkSt w (skippedTab s) (oneColumnTable s)))
        as [[r s2] t2].
      unfold resultOf, stateOf, traceOf in *. simpl in *.
      destruct IH as [Hone IH]. split; [exact Hone|].
      destruct IH as [(vs & Hl & Hr & Ht & Hs)
                     | [(vs & c' & err & Hn & Hp & Hr & Ht & Hs)
                       | (vs & c' & err & Hn & Hp & Hr & Ht & Hs)]].
      * left. exists (d :: vs). simpl. rewrite Hl, Hr, Ht, Hs.
        rewrite <- !app_assoc. auto.
      * right; left. exists (d :: vs), c', err. simpl.
        rewrite Hr, Ht, Hs. auto.
      * right; right. exists (d :: vs), c', err. simpl.
        rewrite Hr, Ht, Hs. auto.
    + destruct (HasPrefix err unsupportedPrefix) eqn:Hp.
      * split; [reflexivity|]. right; left. exists [], c, err.
        simpl. auto.
      * split; [reflexivity|]. right; right. exists [], c, err.
        simpl. auto.
Qed.

Lemma rowLoop_spec (tab : string) (cols : list DBColumns) :
  forall n s,
    let out := rowLoop tab cols n s in
    oneColumnTable (stateOf out) = oneColumnTable s /\
    exists rows e,
      traceOf out = loadTrace tab cols rows e /\
      Forall (fun vs => length vs = length cols) rows /\
      endsAs tab cols n (skippedTab s) (resultOf out)
        (skippedTab (stateOf out)) rows e.
Proof.
  induction n as [|n IH]; intros s; simpl.
  - split; [reflexivity|]. exists [], EndLoaded. simpl. auto.
  - unfold bind.
    pose proof (buildRow_spec tab cols [] [] s) as Hb.
    destruct (buildRow tab cols [] [] s) as [[r s1] t1].
    unfold resultOf, stateOf, traceOf in Hb. simpl in Hb.
    destruct Hb as [Hone Hb].
    destruct Hb as [(vs & Hl & Hr & Ht & Hs)
                   | [(vs & c' & err & Hn & Hp & Hr & Ht & Hs)
                     | (vs & c' & err & Hn & Hp & Hr & Ht & Hs)]];
      subst r t1.
    + unfold CopyData, bind, callCopyFrom. simpl.
      destruct (CopyFrom E (Join vs delimiter)
                  (copyStatment tab (map Column cols)) (world s1))
        as [[err|] w]; simpl.
      * split; [exact Hone|]. exists [], (EndCopyFatal vs err).
        unfold loadTrace, resultOf, stateOf, traceOf; simpl.
        repeat split; auto; lia.
      * specialize (IH (mkSt w (skippedTab s1) (oneColumnTable s1))).
        destruct (rowLoop tab cols n (mkSt w (skippedTab s1) (oneColumnTable s1)))
          as [[r2 s2] t2].
        unfold resultOf, stateOf, traceOf in *. simpl in *.
        destruct IH as [Hone2 (rows & e & Ht2 & Hrows & Hend)].
        split; [congruence|].
        exists (vs :: rows), e. subst t2.
        split; [|split].
        -- unfold loadTrace, rowEvents, copyEvent. simpl.
           now rewrite <- !app_assoc.
        -- constructor; auto.
        -- rewrite Hs in Hend. destruct e; simpl in *; intuition lia.
    + split; [exact Hone|]. exists [], (EndSkipped vs c' err).
      unfold loadTrace, resultOf, stateOf, traceOf; simpl.
      rewrite app_nil_r. repeat split; auto; lia.
    + split; [exact Hone|]. exists [], (EndBuildFatal vs c' err).
      unfold loadTrace, resultOf, stateOf, traceOf; simpl.
      repeat split; auto; lia.
Qed.

Lemma CommitData_spec (t : TableCollection) (s : St) :
  let tab := tabName (Tbl t) in
  let out := CommitData t s in
  oneColumnTable (stateOf out) = oneColumnTable s /\
  ((exists why,
       resultOf out = Halt (HDied why) /\
       traceOf out = [startLog tab; EvConnectDB] /\
       skippedTab (stateOf out) = skippedTab s)
   \/ (exists rows e,
       traceOf out
       = [startLog tab; EvConnectDB]
           ++ loadTrace tab (Columns t) rows e ++ closing e /\
       Forall (fun vs => length vs = length (Columns t)) rows /\
       endsAs tab (Columns t) (Z.to_nat (Rows (cmdOptions cfg)))
         (skippedTab s) (resultOf out) (skippedTab (stateOf out)) rows e)).
Proof.
  unfold CommitData, tabName. cbv zeta.
  unfold bind, Debugf, logf, procedure, callCloseDB. simpl.
  destruct (ConnectDB E (world s)) as [[why|] w]; simpl.
  - split; [reflexivity|]. left. exists why. auto.
  - pose proof (rowLoop_spec (GenerateTableName (Table (Tbl t)) (Schema (Tbl t)))
                  (Columns t) (Z.to_nat (Rows (cmdOptions cfg)))
                  (mkSt w (skippedTab s) (oneColumnTable s))) as Hr.
    destruct (rowLoop _ _ _ _) as [[r s1] t1].
    unfold resultOf, stateOf, traceOf in *. simpl in Hr.
    destruct Hr as [Hone (rows & e & Ht & Hrows & Hend)].
    destruct r as [[]|h]; simpl.
    + split; [exact Hone|]. right. exists rows, e. subst t1.
      destruct e; simpl in Hend; destruct Hend as [Hr Hend];
        try discriminate Hr; simpl; repeat split; tauto.
    + split; [exact Hone|]. right. exists rows, e. subst t1.
      destruct e; simpl in Hend; destruct Hend as [Hr Hend];
        try discriminate Hr; simpl; rewrite ?app_nil_r;
        repeat split; tauto.
Qed.

(** ** Where generator calls and copies sit in the history *)

Lemma okBuilds_all (Q : Event -> bool) cs vs :
  (forall dt v, Q (EvBuildData dt (inl v)) = true) ->
  forallb Q (okBuilds cs vs) = true.
Proof.
  intros HQ. unfold okBuilds. apply forallb_forall. intros e He.
  apply in_map_iff in He. destruct He as ([c v] & <- & _). apply HQ.
Qed.

Lemma rows_all (Q : Event -> bool) tab cols rows :
  (forall dt v, Q (EvBuildData dt (inl v)) = true) ->
  (forall p st, Q (EvCopyFrom p st None) = true) ->
  forallb Q (flat_map (rowEvents tab cols) rows) = true.
Proof.
  intros HB HC. induction rows as [|vs rows IH]; simpl; [reflexivity|].
  unfold rowEvents at 1, copyEvent. rewrite !forallb_app, IH. simpl.
  rewrite okBuilds_all, HC by assumption. reflexivity.
Qed.

Lemma generated_okBuilds cs vs :
  (length vs <= length cs)%nat -> generated (okBuilds cs vs) = vs.
Proof.
  revert vs. induction cs as [|c cs IH]; intros [|v vs] H; simpl in *;
    try reflexivity; try lia.
  unfold generated in *. simpl. f_equal. apply IH. lia.
Qed.

Lemma generated_app a b : generated (a ++ b) = generated a ++ generated b.
Proof. unfold generated. apply flat_map_app. Qed.

Lemma payloads_app a b : payloads (a ++ b) = payloads a ++ payloads b.
Proof. unfold payloads. apply flat_map_app. Qed.

Lemma payloads_none l : forallb (fun e => negb (isCopy e)) l = true -> payloads l = [].
Proof.
  induction l as [|e l IH]; simpl; [reflexivity|].
  intros H. apply andb_true_iff in H. destruct H as [He Hl].
  unfold payloads in *. simpl. rewrite (IH Hl).
  destruct e; try reflexivity. discriminate He.
Qed.

Lemma payloads_okBuilds cs vs : payloads (okBuilds cs vs) = [].
Proof. apply payloads_none. now apply okBuilds_all. Qed.

Lemma generated_rows tab cols rows :
  Forall (fun vs => length vs = length cols) rows ->
  generated (flat_map (rowEvents tab cols) rows) = concat rows.
Proof.
  induction 1 as [|vs rows Hvs _ IH]; simpl; [reflexivity|].
  unfold rowEvents at 1. rewrite !generated_app, IH.
  rewrite generated_okBuilds by lia. simpl. now rewrite app_nil_r.
Qed.

Lemma payloads_rows tab cols rows :
  payloads (flat_map (rowEvents tab cols) rows)
  = map (fun vs => Join vs delimiter) rows.
Proof.
  induction rows as [|vs rows IH]; simpl; [reflexivity|].
  unfold rowEvents at 1. rewrite !payloads_app, IH, payloads_okBuilds.
  reflexivity.
Qed.

Lemma builds_okBuilds cs vs :
  length (filter isBuild (okBuilds cs vs)) = Nat.min (length cs) (length vs).
Proof.
  revert vs. induction cs as [|c cs IH]; intros [|v vs]; try reflexivity.
  rewrite okBuilds_cons. cbn [filter isBuild length Nat.min]. now rewrite IH.
Qed.

Lemma builds_rows tab cols rows :
  Forall (fun vs => length vs = length cols) rows ->
  length (filter isBuild (flat_map (rowEvents tab cols) rows))
  = (length rows * length cols)%nat.
Proof.
  induction 1 as [|vs rows Hvs _ IH]; simpl; [reflexivity|].
  unfold rowEvents at 1. rewrite !filter_app, !length_app, IH, builds_okBuilds.
  simpl. lia.
Qed.

Lemma copies_okBuilds cs vs : filter isCopy (okBuilds cs vs) = [].
Proof.
  unfold okBuilds. induction (combine cs vs) as [|cv l IH]; simpl; auto.
Qed.

Lemma copies_rows tab cols rows :
  filter isCopy (flat_map (rowEvents tab cols) rows)
  = map (fun vs => copyEvent tab cols vs None) rows.
Proof.
  induction rows as [|vs rows IH]; simpl; [reflexivity|].
  unfold rowEvents at 1. rewrite !filter_app, IH, copies_okBuilds.
  reflexivity.
Qed.

Lemma nth_error_lt {A} (l : list A) n x : nth_error l n = Some x -> (n < length l)%nat.
Proof. intros H. apply nth_error_Some. congruence. Qed.

(** A failed generator call can only be the one that ended the row loop. *)
Lemma failedBuild_in_loadTrace tab cols rows e hd tl pre dt err post :
  forallb (fun a => negb (isFailedBuild a)) hd = true ->
  forallb (fun a => negb (isFailedBuild a)) tl = true ->
  hd ++ loadTrace tab cols rows e ++ tl = pre ++ EvBuildData dt (inr err) :: post ->
  exists vs c,
    dt = Datatype c /\
    pre = hd ++ flat_map (rowEvents tab cols) rows ++ okBuilds cols vs /\
    ((e = EndSkipped vs c err /\ post = skipLog tab c err :: tl) \/
     (e = EndBuildFatal vs c err /\ post = tl)).
Proof.
  intros Hhd Htl Heq.
  assert (Hrows : forallb (fun a => negb (isFailedBuild a))
                    (flat_map (rowEvents tab cols) rows) = true)
    by (apply rows_all; reflexivity).
  assert (Hok : forall vs, forallb (fun a => negb (isFailedBuild a))
                    (okBuilds cols vs) = true)
    by (intros; apply okBuilds_all; reflexivity).
  unfold loadTrace in Heq.
  destruct e as [|vs c er|vs c er|vs er]; simpl in Heq.
  - exfalso. eapply (no_split isFailedBuild); [exact Heq| |reflexivity].
    rewrite !forallb_app, Hhd, Hrows, Htl. reflexivity.
  - replace (hd ++ (flat_map (rowEvents tab cols) rows ++
               okBuilds cols vs ++ [EvBuildData (Datatype c) (inr er); skipLog tab c er]) ++ tl)
      with ((hd ++ flat_map (rowEvents tab cols) rows ++ okBuilds cols vs)
              ++ EvBuildData (Datatype c) (inr er) :: (skipLog tab c er :: tl))
      in Heq by (rewrite <- !app_assoc; reflexivity).
    apply (split_cases isFailedBuild) in Heq;
      [| rewrite !forallb_app, Hhd, Hrows, Hok; reflexivity | reflexivity].
    destruct Heq as [(-> & Hx & ->) | (pre2 & -> & HB)].
    + inversion Hx; subst. exists vs, c. auto.
    + exfalso. eapply (no_split isFailedBuild); [exact HB| |reflexivity].
      simpl. exact Htl.
  - replace (hd ++ (flat_map (rowEvents tab cols) rows ++
               okBuilds cols vs ++ [EvBuildData (Datatype c) (inr er)]) ++ tl)
      with ((hd ++ flat_map (rowEvents tab cols) rows ++ okBuilds cols vs)
              ++ EvBuildData (Datatype c) (inr er) :: tl)
      in Heq by (rewrite <- !app_assoc; reflexivity).
    apply (split_cases isFailedBuild) in Heq;
      [| rewrite !forallb_app, Hhd, Hrows, Hok; reflexivity | reflexivity].
    destruct Heq as [(-> & Hx & ->) | (pre2 & -> & HB)].
    + inversion Hx; subst. exists vs, c. auto.
    + exfalso. eapply (no_split isFailedBuild); [exact HB| exact Htl |reflexivity].
  - exfalso. eapply (no_split isFailedBuild); [exact Heq| |reflexivity].
    rewrite !forallb_app, Hhd, Hrows, Hok, Htl. reflexivity.
Qed.

(** Every copy is preceded by the generator calls of its own row. *)
Lemma copy_in_loadTrace tab cols rows e tl :
  Forall (fun vs => length vs = length cols) rows ->
  match e with EndCopyFatal vs _ => length vs = length cols | _ => True end ->
  forallb (fun a => negb (isCopy a)) tl = true ->
  forall hd pre payload stmt err post,
    forallb (fun a => negb (isCopy a)) hd = true ->
    hd ++ loadTrace tab cols rows e ++ tl = pre ++ EvCopyFrom payload stmt err :: post ->
    exists pre' vs,
      pre = pre' ++ okBuilds cols vs /\
      length vs = length cols /\
      payload = Join vs delimiter /\
      stmt = copyStatment tab (map Column cols) /\
      (err = None \/
       exists er, err = Some er /\ e = EndCopyFatal vs er /\
                  post = copyReport tab cols vs ++ tl).
Proof.
  intros Hrows He Htl.
  assert (Hok : forall vs, forallb (fun a => negb (isCopy a))
                    (okBuilds cols vs) = true)
    by (intros; apply okBuilds_all; reflexivity).
  induction Hrows as [|vs rows Hvs Hrows IH];
    intros hd pre payload stmt err post Hhd Heq.
  - unfold loadTrace in Heq. simpl in Heq.
    destruct e as [|vs c er|vs c er|vs er]; simpl in Heq.
    + exfalso. eapply (no_split isCopy); [exact Heq| |reflexivity].
      rewrite !forallb_app, Hhd, Htl. reflexivity.
    + exfalso. eapply (no_split isCopy); [exact Heq| |reflexivity].
      rewrite !forallb_app, Hhd, Hok, Htl. reflexivity.
    + exfalso. eapply (no_split isCopy); [exact Heq| |reflexivity].
      rewrite !forallb_app, Hhd, Hok, Htl. reflexivity.
    + replace (hd ++ (okBuilds cols vs ++
                 copyEvent tab cols vs (Some er) :: copyReport tab cols vs) ++ tl)
        with ((hd ++ okBuilds cols vs)
                ++ copyEvent tab cols vs (Some er) :: (copyReport tab cols vs ++ tl))
        in Heq by (rewrite <- !app_assoc; reflexivity).
      apply (split_cases isCopy) in Heq;
        [| rewrite !forallb_app, Hhd, Hok; reflexivity | reflexivity].
      destruct Heq as [(-> & Hx & ->) | (pre2 & -> & HB)].
      * inversion Hx; subst. exists hd, vs. repeat split; auto.
        right. exists er. auto.
      * exfalso. eapply (no_split isCopy); [exact HB| |reflexivity].
        simpl. exact Htl.
  - unfold loadTrace in Heq. simpl in Heq. unfold rowEvents at 1 in Heq.
    replace (hd ++ (((okBuilds cols vs ++ [copyEvent tab cols vs None]) ++
               flat_map (rowEvents tab cols) rows) ++ endEvents tab cols e) ++ tl)
      with ((hd ++ okBuilds cols vs)
              ++ copyEvent tab cols vs None
              :: ([] ++ loadTrace tab cols rows e ++ tl))
      in Heq by (unfold loadTrace; simpl; rewrite <- !app_assoc; reflexivity).
    apply (split_cases isCopy) in Heq;
      [| rewrite !forallb_app, Hhd, Hok; reflexivity | reflexivity].
    destruct Heq as [(-> & Hx & ->) | (pre2 & -> & HB)].
    + inversion Hx; subst. exists hd, vs. repeat split; auto.
    + apply IH in HB; [|reflexivity].
      destruct HB as (pre' & vs' & -> & Hl & Hp & Hst & Herr).
      exists ((hd ++ okBuilds cols vs) ++ copyEvent tab cols vs None :: pre'), vs'.
      simpl. rewrite <- !app_assoc. simpl. repeat split; auto.
Qed.

Lemma copies_history tab cols rows e :
  filter isCopy ([startLog tab; EvConnectDB] ++ loadTrace tab cols rows e ++ closing e)
  = map (fun vs => copyEvent tab cols vs None) rows
    ++ match e with
       | EndCopyFatal vs er => [copyEvent tab cols vs (Some er)]
       | _ => []
       end.
Proof.
  unfold loadTrace. simpl. rewrite !filter_app, copies_rows.
  destruct e; simpl; rewrite ?filter_app, ?copies_okBuilds; simpl;
    rewrite ?app_nil_r; reflexivity.
Qed.

Lemma payloads_history tab cols rows e :
  payloads ([startLog tab; EvConnectDB] ++ loadTrace tab cols rows e ++ closing e)
  = map (fun vs => Join vs delimiter) rows
    ++ match e with
       | EndCopyFatal vs er => [Join vs delimiter]
       | _ => []
       end.
Proof.
  unfold loadTrace. rewrite !payloads_app, payloads_rows.
  destruct e; simpl; rewrite ?payloads_app, ?payloads_okBuilds; simpl;
    rewrite ?app_nil_r; reflexivity.
Qed.

Lemma generated_history tab cols rows e :
  Forall (fun vs => length vs = length cols) rows ->
  match e with
  | EndLoaded => True
  | EndSkipped vs _ _ | EndBuildFatal vs _ _ | EndCopyFatal vs _ =>
      (length vs <= length cols)%nat
  end ->
  generated ([startLog tab; EvConnectDB] ++ loadTrace tab cols rows e ++ closing e)
  = concat rows
    ++ match e with
       | EndLoaded => []
       | EndSkipped vs _ _ | EndBuildFatal vs _ _ | EndCopyFatal vs _ => vs
       end.
Proof.
  intros Hrows He. unfold loadTrace.
  rewrite !generated_app, generated_rows by assumption.
  destruct e; simpl; rewrite ?generated_app, ?generated_okBuilds by assumption;
    simpl; rewrite ?app_nil_r; reflexivity.
Qed.

Lemma endsAs_partial tab cols n sk0 r sk1 rows e :
  endsAs tab cols n sk0 r sk1 rows e ->
  match e with
  | EndLoaded => True
  | EndSkipped vs _ _ | EndBuildFatal vs _ _ => (length vs < length cols)%nat
  | EndCopyFatal vs _ => length vs = length cols
  end.
Proof.
  destruct e; simpl; intros H; auto.
  - destruct H as (_ & _ & H & _). eapply nth_error_lt; eauto.
  - destruct H as (_ & _ & H & _). eapply nth_error_lt; eauto.
  - tauto.
Qed.

(** ** Composing runs *)

Lemma app_split (l1 l2 pre : list Event) e post :
  l1 ++ l2 = pre ++ e :: post ->
  (exists post1, l1 = pre ++ e :: post1 /\ post = post1 ++ l2) \/
  (exists pre2, pre = l1 ++ pre2 /\ l2 = pre2 ++ e :: post).
Proof.
  revert pre. induction l1 as [|a l1 IH]; intros pre Heq; simpl in Heq.
  - right. exists pre. auto.
  - destruct pre as [|p pre]; simpl in Heq; inversion Heq; subst.
    + left. exists l1. auto.
    + destruct (IH pre H1) as [(post1 & -> & ->) | (pre2 & -> & ->)].
      * left. exists post1. auto.
      * right. exists pre2. auto.
Qed.

Lemma bind_ok {A B} (m : M A) (f : A -> M B) s a :
  resultOf (m s) = Ok a ->
  bind m f s
  = (resultOf (f a (stateOf (m s))), stateOf (f a (stateOf (m s))),
     traceOf (m s) ++ traceOf (f a (stateOf (m s)))).
Proof.
  unfold bind, resultOf, stateOf, traceOf.
  destruct (m s) as [[r s1] t1]. simpl. intros ->.
  now destruct (f a s1) as [[r2 s2] t2].
Qed.

Lemma bind_halt {A B} (m : M A) (f : A -> M B) s h :
  resultOf (m s) = Halt h ->
  bind m f s = (Halt h, stateOf (m s), traceOf (m s)).
Proof.
  unfold bind, resultOf, stateOf, traceOf.
  destruct (m s) as [[r s1] t1]. simpl. now intros ->.
Qed.

Lemma bind_cases {A B} (m : M A) (f : A -> M B) s :
  (exists a, resultOf (m s) = Ok a /\
     bind m f s
     = (resultOf (f a (stateOf (m s))), stateOf (f a (stateOf (m s))),
        traceOf (m s) ++ traceOf (f a (stateOf (m s))))) \/
  (exists h, resultOf (m s) = Halt h /\
     bind m f s = (Halt h, stateOf (m s), traceOf (m s))).
Proof.
  destruct (resultOf (m s)) as [a|h] eqn:Hr.
  - left. exists a. split; auto. now apply bind_ok.
  - right. exists h. split; auto. now apply bind_halt.
Qed.

Lemma emits_ret {A} Q (a : A) : emits Q (ret a).
Proof. intros s. reflexivity. Qed.

Lemma emits_bind {A B} Q (m : M A) (f : A -> M B) :
  emits Q m -> (forall a, emits Q (f a)) -> emits Q (bind m f).
Proof.
  intros Hm Hf s.
  destruct (bind_cases m f s) as [(a & _ & ->) | (h & _ & ->)];
    unfold traceOf at 1; simpl.
  - rewrite forallb_app, (Hm s), (Hf a). reflexivity.
  - apply Hm.
Qed.

Lemma emits_forEach {A} Q (xs : list A) (body : A -> M unit) :
  (forall x, emits Q (body x)) -> emits Q (forEach xs body).
Proof.
  intros Hb. induction xs as [|x xs IH]; simpl.
  - apply emits_ret.
  - apply emits_bind; auto.
Qed.

Lemma emits_logf Q lvl fmt args :
  Q (EvLog lvl fmt args) = true -> emits Q (logf lvl fmt args).
Proof. intros H s. unfold traceOf, logf. simpl. now rewrite H. Qed.

Lemma emits_Fatalf {A} Q fmt args : emits Q (@Fatalf A fmt args).
Proof. intros s. reflexivity. Qed.

Lemma emits_procedure Q e f : Q e = true -> emits Q (procedure e f).
Proof.
  intros H s. unfold traceOf, procedure.
  destruct (f (world s)) as [[why|] w]; simpl; now rewrite H.
Qed.

Lemma emits_callExecuteDB Q q :
  (forall err, Q (EvExecuteDB q err) = true) -> emits Q (callExecuteDB q).
Proof.
  intros H s. unfold traceOf, callExecuteDB.
  destruct (ExecuteDB E q (world s)) as [err w]; simpl. now rewrite H.
Qed.

(** What each part of the pipeline can emit. *)

Lemma emits_columnExtractor Q tables :
  (forall l f a, Q (EvLog l f a) = true) -> emits Q (columnExtractor tables).
Proof.
  intros HQ s. rewrite columnExtractor_run. unfold traceOf. simpl.
  rewrite HQ. simpl. apply forallb_forall. intros e He.
  apply in_flat_map in He. destruct He as (t & _ & He).
  unfold checkLog in He.
  destruct (extractColumns t) as [|c [|c' cs]]; simpl in He; try contradiction.
  destruct He as [<-|[]]. apply HQ.
Qed.

Lemma emits_skipTablesWarning Q :
  (forall l f a, Q (EvLog l f a) = true) -> emits Q skipTablesWarning.
Proof.
  intros HQ. unfold skipTablesWarning. apply emits_bind.
  - intros s. reflexivity.
  - intros skipped. destruct (0 <? length skipped)%nat.
    + apply emits_logf, HQ.
    + apply emits_ret.
Qed.

Lemma emits_insertLoop Q t n :
  (forall q err, Q (EvExecuteDB q err) = true) -> emits Q (insertLoop t n).
Proof.
  intros HQ. induction n as [|n IH]; simpl.
  - apply emits_ret.
  - apply emits_bind.
    + apply emits_callExecuteDB. intros; apply HQ.
    + intros [e|]; [apply emits_Fatalf | exact IH].
Qed.

Lemma emits_addData Q :
  (forall l f a, Q (EvLog l f a) = true) ->
  (forall q err, Q (EvExecuteDB q err) = true) ->
  emits Q addDataIfItsASerialDatatype.
Proof.
  intros HL HX. unfold addDataIfItsASerialDatatype. apply emits_bind.
  - intros s. reflexivity.
  - intros tabs. apply emits_forEach. intros t. apply emits_bind.
    + apply emits_logf, HL.
    + intros _. now apply emits_insertLoop.
Qed.

Lemma history_all (Q : Event -> bool) tab cols rows e :
  (forall l f a, Q (EvLog l f a) = true) ->
  Q EvConnectDB = true -> Q EvCloseDB = true ->
  (forall dt r, Q (EvBuildData dt r) = true) ->
  (forall p err, Q (EvCopyFrom p (copyStatment tab (map Column cols)) err) = true) ->
  forallb Q ([startLog tab; EvConnectDB] ++ loadTrace tab cols rows e ++ closing e)
  = true.
Proof.
  intros HL HC HD HB HP. unfold loadTrace, startLog.
  rewrite !forallb_app. simpl. rewrite HL, HC. simpl.
  assert (Hrows : forallb Q (flat_map (rowEvents tab cols) rows) = true).
  { induction rows as [|vs rows IH]; simpl; [reflexivity|].
    unfold rowEvents at 1, copyEvent. rewrite !forallb_app, IH. simpl.
    rewrite okBuilds_all, HP by (intros; apply HB). reflexivity. }
  rewrite Hrows. simpl.
  destruct e; simpl; unfold skipLog, copyEvent;
    rewrite ?forallb_app; simpl;
    rewrite ?okBuilds_all by (intros; apply HB);
    rewrite ?HB, ?HL, ?HD, ?HP; reflexivity.
Qed.

Lemma emits_CommitData Q t :
  (forall l f a, Q (EvLog l f a) = true) ->
  Q EvConnectDB = true -> Q EvCloseDB = true ->
  (forall dt r, Q (EvBuildData dt r) = true) ->
  (forall p err,
     Q (EvCopyFrom p (copyStatment (tabName (Tbl t)) (map Column (Columns t))) err)
     = true) ->
  emits Q (CommitData t).
Proof.
  intros HL HC HD HB HP s.
  destruct (CommitData_spec t s) as [_ [(why & _ & -> & _) | (rows & e & -> & _)]].
  - simpl. unfold startLog. now rewrite HL, HC.
  - now apply history_all.
Qed.

(** ** Claims about classification *)

(** C4. A column is sequence-backed exactly when its default expression
    starts with the literal [nextval], compared as written (another case or
    a leading blank does not match); no sequence-backed column is in any
    TableCollection that classification returns, and the columns of a
    TableCollection are the non-sequence-backed columns of its table in
    their original order: every such column of a listed table is in that
    table's collection. *)
Theorem C4_sequence_backed_columns_are_left_out
    (tables : list DBTables) (s : St) :
  (forall c, isItSerialDatatype c = true <->
             exists rest, Sequence c = "nextval" @@ rest) /\
  isItSerialDatatype (mkDBColumns "id" "integer" "NEXTVAL('s')") = false /\
  isItSerialDatatype (mkDBColumns "id" "integer" " nextval('s')") = false /\
  exists collection,
    resultOf (columnExtractor tables s) = Ok collection /\
    (forall tc, In tc collection ->
       In (Tbl tc) tables /\
       (forall c, In c (Columns tc) -> isItSerialDatatype c = false) /\
       Columns tc
       = filter (fun c => negb (isItSerialDatatype c)) (extractColumns (Tbl tc))) /\
    (forall t c, In t tables -> In c (extractColumns t) ->
       isItSerialDatatype c = false ->
       exists tc, In tc collection /\ Tbl tc = t /\ In c (Columns tc)).
Proof.
  split; [|split; [reflexivity|split; [reflexivity|]]].
  - intros c. rewrite isItSerialDatatype_prefix. apply HasPrefix_nextval.
  - exists (flat_map classified tables). rewrite columnExtractor_run.
    split; [reflexivity|]. split.
    + intros tc Htc. apply in_classified in Htc.
      destruct Htc as (Ht & Hc & _). repeat split; auto.
      intros c Hin. rewrite Hc in Hin. unfold keptColumns in Hin.
      apply filter_In in Hin. destruct Hin as [_ Hin].
      now apply negb_true_iff in Hin.
    + intros t c Ht Hc Hs.
      assert (Hk : In c (keptColumns t)).
      { unfold keptColumns. apply filter_In. split; auto.
        now apply negb_true_iff. }
      exists (mkTableCollection t (keptColumns t)). repeat split; auto.
      apply in_classified. simpl. repeat split; auto.
      intros Hnil. rewrite Hnil in Hk. contradiction.
Qed.

Lemma classified_all_serial (t : DBTables) :
  forallb isItSerialDatatype (extractColumns t) = true -> keptColumns t = [].
Proof.
  unfold keptColumns. intros H.
  induction (extractColumns t) as [|c cs IH]; simpl in *; [reflexivity|].
  apply andb_true_iff in H. destruct H as [Hc Hcs].
  rewrite Hc. simpl. auto.
Qed.

(** C5. A table whose only column is sequence-backed has its qualified name
    in [oneColumnTable] after classification and is in no TableCollection.
    A table all of whose columns are sequence-backed and that has no column
    or more than one is in no TableCollection, and its name is not in
    [oneColumnTable], the list not holding that name before and the name
    belonging to no other table of the input. *)
Theorem C5_sequence_only_tables (tables : list DBTables) (s : St) (t : DBTables) :
  In t tables ->
  exists collection,
    resultOf (columnExtractor tables s) = Ok collection /\
    (forall c, extractColumns t = [c] -> isItSerialDatatype c = true ->
       In (tabName t) (oneColumnTable (stateOf (columnExtractor tables s))) /\
       forall tc, In tc collection -> Tbl tc <> t) /\
    (length (extractColumns t) <> 1%nat ->
     forallb isItSerialDatatype (extractColumns t) = true ->
       (forall tc, In tc collection -> Tbl tc <> t) /\
       (~ In (tabName t) (oneColumnTable s) ->
        (forall t', In t' tables -> tabName t' = tabName t -> t' = t) ->
        ~ In (tabName t) (oneColumnTable (stateOf (columnExtractor tables s))))).
Proof.
  intros Ht. exists (flat_map classified tables).
  rewrite columnExtractor_run. split; [reflexivity|].
  unfold stateOf. simpl. split.
  - intros c Hc Hs. split.
    + apply in_or_app. right. apply in_registered. exists t, c. auto.
    + intros tc Htc Heq. apply in_classified in Htc.
      destruct Htc as (_ & Hk & Hne). apply Hne. rewrite Hk, Heq.
      apply classified_all_serial. rewrite Hc. simpl. now rewrite Hs.
  - intros Hlen Hall. split.
    + intros tc Htc Heq. apply in_classified in Htc.
      destruct Htc as (_ & Hk & Hne). apply Hne. rewrite Hk, Heq.
      now apply classified_all_serial.
    + intros Hnot Hinj Hin. apply in_app_or in Hin.
      destruct Hin as [Hin|Hin]; [now apply Hnot|].
      apply in_registered in Hin.
      destruct Hin as (t' & c & Ht' & Hc & _ & Hname).
      symmetry in Hname. apply Hinj in Hname; auto. subst t'.
      rewrite Hc in Hlen. simpl in Hlen. congruence.
Qed.

(** What classification returns depends on the column descriptors only,
    and a second run appends the same names to [oneColumnTable] once
    more. *)
Lemma columnExtractor_twice (tables : list DBTables) (s : St) :
  let run1 := columnExtractor tables s in
  let run2 := columnExtractor tables (stateOf run1) in
  resultOf run1 = Ok (flat_map classified tables) /\
  resultOf run2 = resultOf run1 /\
  oneColumnTable (stateOf run1)
  = oneColumnTable s ++ flat_map registered tables /\
  oneColumnTable (stateOf run2)
  = oneColumnTable (stateOf run1) ++ flat_map registered tables /\
  (forall x, In x (oneColumnTable (stateOf run2)) <->
             In x (oneColumnTable (stateOf run1))) /\
  world (stateOf run2) = world s /\
  skippedTab (stateOf run2) = skippedTab s.
Proof.
  cbv zeta. rewrite !columnExtractor_run. unfold resultOf, stateOf. simpl.
  repeat split; auto.
  - intros Hin. repeat (apply in_app_or in Hin; destruct Hin as [Hin|Hin]);
      apply in_or_app; auto.
  - intros Hin. apply in_or_app. now left.
Qed.

(** ** Claims about one table load *)

Lemma CommitData_clean (t : TableCollection) (s : St) :
  let tab := tabName (Tbl t) in
  let out := CommitData t s in
  resultOf out = Ok tt ->
  (forall dt err, ~ In (EvBuildData dt (inr err)) (traceOf out)) ->
  exists rows,
    Forall (fun vs => length vs = length (Columns t)) rows /\
    length rows = Z.to_nat (Rows (cmdOptions cfg)) /\
    traceOf out
    = [startLog tab; EvConnectDB]
        ++ loadTrace tab (Columns t) rows EndLoaded ++ closing EndLoaded /\
    skippedTab (stateOf out) = skippedTab s.
Proof.
  cbv zeta. intros Hok Hno.
  destruct (CommitData_spec t s)
    as [_ [(why & Hr & _) | (rows & e & Ht & Hrows & Hend)]].
  - rewrite Hok in Hr. discriminate.
  - destruct e as [|vs c er|vs c er|vs er]; simpl in Hend.
    + exists rows. tauto.
    + exfalso. apply (Hno (Datatype c) er). rewrite Ht.
      unfold loadTrace. simpl. right; right.
      apply in_or_app. left. apply in_or_app. right.
      apply in_or_app. right. now left.
    + destruct Hend as [Hr _]. rewrite Hok in Hr. discriminate.
    + destruct Hend as [Hr _]. rewrite Hok in Hr. discriminate.
Qed.

(** C7. When a table load returns and no generator call failed, the copies
    issued for the table are successful copies of complete rows and their
    number is the configured row count. *)
Theorem C7_successful_load_commits_row_count (t : TableCollection) (s : St) :
  let tab := tabName (Tbl t) in
  let out := CommitData t s in
  (0 <= Rows (cmdOptions cfg))%Z ->
  resultOf out = Ok tt ->
  (forall dt err, ~ In (EvBuildData dt (inr err)) (traceOf out)) ->
  exists rows,
    Forall (fun vs => length vs = length (Columns t)) rows /\
    filter isCopy (traceOf out)
    = map (fun vs => copyEvent tab (Columns t) vs None) rows /\
    Z.of_nat (length (filter isCopy (traceOf out))) = Rows (cmdOptions cfg).
Proof.
  cbv zeta. intros Hpos Hok Hno.
  destruct (CommitData_clean t s Hok Hno) as (rows & Hrows & Hlen & Ht & _).
  exists rows. rewrite Ht, copies_history. rewrite app_nil_r.
  repeat split; auto. rewrite length_map, Hlen. lia.
Qed.

(** C10. In the history of a table load, nothing is copied after a failed
    generator call: the payloads are those of the complete rows built
    before, and the values generated for the unfinished row are in none of
    them.  Every copy comes right after the generator calls for the columns
    of the collection, in their order, carries exactly the values these
    calls returned, joined in that order, and names the columns in the same
    order. *)
Theorem C10_only_complete_rows_are_copied (t : TableCollection) (s : St) :
  let tab := tabName (Tbl t) in
  let cols := Columns t in
  let tr := traceOf (CommitData t s) in
  (forall pre dt err post,
     tr = pre ++ EvBuildData dt (inr err) :: post ->
     payloads post = [] /\
     exists rows partial,
       Forall (fun vs => length vs = length cols) rows /\
       (length partial < length cols)%nat /\
       generated pre = concat rows ++ partial /\
       payloads tr = map (fun vs => Join vs delimiter) rows) /\
  (forall pre payload stmt err post,
     tr = pre ++ EvCopyFrom payload stmt err :: post ->
     exists pre' vs,
       pre = pre' ++ okBuilds cols vs /\
       length vs = length cols /\
       payload = Join vs delimiter /\
       stmt = copyStatment tab (map Column cols)).
Proof.
  cbv zeta.
  destruct (CommitData_spec t s)
    as [_ [(why & _ & Ht & _) | (rows & e & Ht & Hrows & Hend)]].
  - split.
    + intros pre dt err post Heq. rewrite Ht in Heq. exfalso.
      eapply (no_split isFailedBuild); [exact Heq| |]; reflexivity.
    + intros pre payload stmt err post Heq. rewrite Ht in Heq. exfalso.
      eapply (no_split isCopy); [exact Heq| |]; reflexivity.
  - pose proof (endsAs_partial _ _ _ _ _ _ _ _ Hend) as Hpart.
    split.
    + intros pre dt err post Heq. rewrite Ht in Heq.
      apply failedBuild_in_loadTrace in Heq;
        [| reflexivity | now destruct e].
      destruct Heq as (vs & c & -> & -> & [[-> ->] | [-> ->]]);
        simpl in Hpart.
      * split; [reflexivity|]. exists rows, vs. repeat split; auto.
        -- rewrite !generated_app, generated_rows, generated_okBuilds by (auto; lia).
           reflexivity.
        -- rewrite Ht, payloads_history. now rewrite app_nil_r.
      * split; [reflexivity|]. exists rows, vs. repeat split; auto.
        -- rewrite !generated_app, generated_rows, generated_okBuilds by (auto; lia).
           reflexivity.
        -- rewrite Ht, payloads_history. now rewrite app_nil_r.
    + intros pre payload stmt err post Heq. rewrite Ht in Heq.
      eapply copy_in_loadTrace in Heq; eauto.
      * destruct Heq as (pre' & vs & Hp & Hl & Hpay & Hst & _).
        exists pre', vs. auto.
      * destruct e; auto.
      * now destruct e.
Qed.

(** C6, as the code has it.  The values of a row are joined with the
    delimiter, one character that is neither a letter nor a digit, and
    every complete row is handed to the transport as a payload of its own:
    cutting the generated values into rows of one value per column gives,
    row by row, the payloads of the load; rows are never joined. *)
Theorem C6_one_payload_per_row (t : TableCollection) (s : St) :
  let cols := Columns t in
  let tr := traceOf (CommitData t s) in
  (exists d, delimiter = String d EmptyString /\ isAlphaNumeric d = false) /\
  exists rows partial,
    Forall (fun vs => length vs = length cols) rows /\
    (partial = [] \/ (length partial < length cols)%nat) /\
    generated tr = concat rows ++ partial /\
    payloads tr = map (fun vs => Join vs delimiter) rows.
Proof.
  cbv zeta. split.
  - exists "$"%char. split; reflexivity.
  - destruct (CommitData_spec t s)
      as [_ [(why & _ & Ht & _) | (rows & e & Ht & Hrows & Hend)]].
    + exists [], []. rewrite Ht. repeat split; auto.
    + pose proof (endsAs_partial _ _ _ _ _ _ _ _ Hend) as Hpart.
      rewrite Ht, payloads_history, generated_history;
        [| assumption | destruct e; simpl in *; auto; lia].
      destruct e as [|vs c er|vs c er|vs er]; simpl in *.
      * exists rows, []. rewrite !app_nil_r. auto.
      * exists rows, vs. rewrite !app_nil_r. auto.
      * exists rows, vs. rewrite !app_nil_r. auto.
      * exists (rows ++ [vs]), [].
        rewrite concat_app, map_app. simpl. rewrite !app_nil_r.
        repeat split; auto. apply Forall_app. auto.
Qed.

(** ** One iteration of the table loop *)

Lemma loadTable_run (t : TableCollection) (s : St) :
  let tab := tabName (Tbl t) in
  (exists why,
      resultOf (loadTable t s) = Halt (HDied why) /\
      traceOf (loadTable t s) = [EvRemoveConstraints tab] /\
      skippedTab (stateOf (loadTable t s)) = skippedTab s /\
      oneColumnTable (stateOf (loadTable t s)) = oneColumnTable s) \/
  (exists w,
      let out := CommitData t (mkSt w (skippedTab s) (oneColumnTable s)) in
      loadTable t s
      = (resultOf out, stateOf out, EvRemoveConstraints tab :: traceOf out)).
Proof.
  unfold loadTable, tabName, bind, procedure. cbv zeta.
  destruct (RemoveConstraints E _ (world s)) as [[why|] w].
  - left. exists why. auto.
  - right. exists w. unfold resultOf, stateOf, traceOf.
    now destruct (CommitData t _) as [[r s1] t1].
Qed.

Lemma loadTable_spec (t : TableCollection) (s : St) :
  let tab := tabName (Tbl t) in
  let out := loadTable t s in
  oneColumnTable (stateOf out) = oneColumnTable s /\
  ((exists why,
       resultOf out = Halt (HDied why) /\
       (traceOf out = [EvRemoveConstraints tab] \/
        traceOf out = [EvRemoveConstraints tab; startLog tab; EvConnectDB]) /\
       skippedTab (stateOf out) = skippedTab s)
   \/ (exists rows e,
       traceOf out
       = [EvRemoveConstraints tab; startLog tab; EvConnectDB]
           ++ loadTrace tab (Columns t) rows e ++ closing e /\
       Forall (fun vs => length vs = length (Columns t)) rows /\
       endsAs tab (Columns t) (Z.to_nat (Rows (cmdOptions cfg)))
         (skippedTab s) (resultOf out) (skippedTab (stateOf out)) rows e)).
Proof.
  cbv zeta.
  destruct (loadTable_run t s) as [(why & Hr & Ht & Hs & Ho) | (w & Heq)].
  - split; [exact Ho|]. left. exists why. auto.
  - cbv zeta in Heq. rewrite Heq. unfold resultOf at 1 2, stateOf at 1 2 3, traceOf at 1 2 3.
    simpl fst. simpl snd.
    destruct (CommitData_spec t (mkSt w (skippedTab s) (oneColumnTable s)))
      as [Ho [(why & Hr & Ht & Hs) | (rows & e & Ht & Hrows & Hend)]];
      simpl in Ho.
    + split; [exact Ho|]. left. exists why. rewrite Ht. auto.
    + split; [exact Ho|]. right. exists rows, e. rewrite Ht. auto.
Qed.

Lemma loadTable_clean (t : TableCollection) (s : St) :
  resultOf (loadTable t s) = Ok tt ->
  (forall dt err, ~ In (EvBuildData dt (inr err)) (traceOf (loadTable t s))) ->
  length (filter isCopy (traceOf (loadTable t s)))
  = Z.to_nat (Rows (cmdOptions cfg)).
Proof.
  intros Hok Hno.
  destruct (loadTable_run t s) as [(why & Hr & _) | (w & Heq)].
  - rewrite Hok in Hr. discriminate.
  - cbv zeta in Heq. rewrite Heq in Hok, Hno |- *.
    unfold resultOf at 1 in Hok. unfold traceOf at 1 in Hno.
    unfold traceOf at 1. simpl in Hok, Hno |- *.
    destruct (CommitData_clean t _ Hok) as (rows & _ & Hlen & Ht & _).
    + intros dt err Hin. apply (Hno dt err). now right.
    + rewrite Ht, copies_history, app_nil_r, length_map. exact Hlen.
Qed.

Lemma loadTables_cons_ok (t : TableCollection) (rest : list TableCollection) s :
  resultOf (loadTable t s) = Ok tt ->
  loadTables (t :: rest) s
  = (resultOf (loadTables rest (stateOf (loadTable t s))),
     stateOf (loadTables rest (stateOf (loadTable t s))),
     traceOf (loadTable t s) ++ traceOf (loadTables rest (stateOf (loadTable t s)))).
Proof.
  intros Hok. unfold loadTables. simpl.
  now rewrite (bind_ok _ _ _ _ Hok).
Qed.

Lemma rows_position (n a b i k : nat) :
  (a * n + b = i * n + k)%nat -> (b < n)%nat -> (k < n)%nat -> a = i.
Proof. intros H Hb Hk. nia. Qed.

(** C1. If, in the load of table T, the generator call for column [k] of
    row [i] (the call number [i * columns + k] of the load) fails with an
    unsupported-datatype error, then the copies of the load are successful
    copies of exactly [i] complete rows, T's name is appended once to
    [skippedTab], the load returns without a fatal error, the table loop
    goes on with the remaining tables from the state the load left, and a
    load that returns without a failed generator call copies the
    configured number of rows, whatever was skipped before. *)
Theorem C1_unsupported_datatype_skips_the_table
    (t : TableCollection) (s : St) (i k : nat) pre dt err post :
  let tab := tabName (Tbl t) in
  let out := loadTable t s in
  traceOf out = pre ++ EvBuildData dt (inr err) :: post ->
  HasPrefix err unsupportedPrefix = true ->
  length (filter isBuild pre) = (i * length (Columns t) + k)%nat ->
  (k < length (Columns t))%nat ->
  (exists rows,
      length rows = i /\
      Forall (fun vs => length vs = length (Columns t)) rows /\
      filter isCopy (traceOf out)
      = map (fun vs => copyEvent tab (Columns t) vs None) rows) /\
  (i < Z.to_nat (Rows (cmdOptions cfg)))%nat /\
  skippedTab (stateOf out) = skippedTab s ++ [tab] /\
  resultOf out = Ok tt /\
  (forall rest,
      loadTables (t :: rest) s
      = (resultOf (loadTables rest (stateOf out)),
         stateOf (loadTables rest (stateOf out)),
         traceOf out ++ traceOf (loadTables rest (stateOf out)))) /\
  (forall u su,
      resultOf (loadTable u su) = Ok tt ->
      (forall dt' err', ~ In (EvBuildData dt' (inr err')) (traceOf (loadTable u su))) ->
      length (filter isCopy (traceOf (loadTable u su)))
      = Z.to_nat (Rows (cmdOptions cfg))).
Proof.
  cbv zeta. intros Heq Hpre Hcount Hk.
  destruct (loadTable_spec t s)
    as [_ [(why & _ & [Ht|Ht] & _) | (rows & e & Ht & Hrows & Hend)]].
  - exfalso. rewrite Ht in Heq.
    eapply (no_split isFailedBuild); [exact Heq| |]; reflexivity.
  - exfalso. rewrite Ht in Heq.
    eapply (no_split isFailedBuild); [exact Heq| |]; reflexivity.
  - pose proof (endsAs_partial _ _ _ _ _ _ _ _ Hend) as Hpart.
    pose proof Heq as Heq'. rewrite Ht in Heq'.
    apply failedBuild_in_loadTrace in Heq';
      [| reflexivity | now destruct e].
    destruct Heq' as (vs & c & -> & -> & [[-> ->] | [-> ->]]);
      simpl in Hend, Hpart.
    + destruct Hend as (Hr & Hlt & Hn & _ & Hsk).
      assert (Hi : length rows = i).
      { rewrite !filter_app, !length_app, builds_rows, builds_okBuilds in Hcount
          by assumption.
        simpl in Hcount. rewrite Nat.min_r in Hcount by lia.
        eapply rows_position; eauto. }
      split; [|split; [|split; [|split; [|split]]]].
      * exists rows. repeat split; auto.
        rewrite Ht.
        change ([EvRemoveConstraints (tabName (Tbl t)); startLog (tabName (Tbl t)); EvConnectDB]
                  ++ loadTrace (tabName (Tbl t)) (Columns t) rows (EndSkipped vs c err)
                  ++ closing (EndSkipped vs c err))
          with (EvRemoveConstraints (tabName (Tbl t))
                  :: ([startLog (tabName (Tbl t)); EvConnectDB]
                  ++ loadTrace (tabName (Tbl t)) (Columns t) rows (EndSkipped vs c err)
                  ++ closing (EndSkipped vs c err))).
        cbn [filter isCopy]. rewrite copies_history. now rewrite app_nil_r.
      * lia.
      * exact Hsk.
      * exact Hr.
      * intros rest. now apply loadTables_cons_ok.
      * intros u su. apply loadTable_clean.
    + destruct Hend as (_ & _ & _ & Hp & _). congruence.
Qed.

(** ** Fatal failures *)

Lemma CommitData_fatal (t : TableCollection) (s : St) pre e post :
  let tab := tabName (Tbl t) in
  let out := CommitData t s in
  traceOf out = pre ++ e :: post ->
  isFatalFailure e = true ->
  (exists dt err,
      e = EvBuildData dt (inr err) /\
      resultOf out = Halt (buildFatal tab err) /\ post = []) \/
  (exists vs err,
      length vs = length (Columns t) /\
      e = copyEvent tab (Columns t) vs (Some err) /\
      resultOf out = Halt (copyFatal err) /\
      post = copyReport tab (Columns t) vs).
Proof.
  cbv zeta. intros Heq He.
  destruct (CommitData_spec t s)
    as [_ [(why & _ & Ht & _) | (rows & h & Ht & Hrows & Hend)]];
    rewrite Ht in Heq.
  - exfalso. eapply (no_split isFatalFailure); [exact Heq| |exact He].
    reflexivity.
  - pose proof (endsAs_partial _ _ _ _ _ _ _ _ Hend) as Hpart.
    destruct e as [| | | | | |dt [v|er]|p st [er|]|q er|];
      try discriminate He.
    + apply failedBuild_in_loadTrace in Heq;
        [| reflexivity | now destruct h].
      destruct Heq as (vs & c & -> & -> & [[-> ->] | [-> ->]]);
        simpl in Hend.
      * destruct Hend as (_ & _ & _ & Hp & _). simpl in He.
        rewrite Hp in He. discriminate.
      * left. exists (Datatype c), er. tauto.
    + eapply copy_in_loadTrace in Heq; eauto;
        [| destruct h; auto | now destruct h].
      destruct Heq as (pre' & vs & -> & Hl & -> & -> & [Hn | (er' & Her & -> & ->)]);
        [discriminate|].
      inversion Her; subst er'. simpl in Hend.
      right. exists vs, er. unfold copyEvent. rewrite app_nil_r. tauto.
Qed.

Lemma haltsOnFailure_emits {A} (m : M A) :
  emits (fun e => negb (isFatalFailure e)) m -> haltsOnFailure m.
Proof.
  intros Hm s pre e post Heq He. exfalso.
  eapply (no_split isFatalFailure); [exact Heq| apply Hm | exact He].
Qed.

Lemma haltsOnFailure_bind {A B} (m : M A) (f : A -> M B) :
  haltsOnFailure m -> (forall a, haltsOnFailure (f a)) ->
  haltsOnFailure (bind m f).
Proof.
  intros Hm Hf s pre e post Heq He.
  destruct (bind_cases m f s) as [(a & Hr & Hb) | (h & Hr & Hb)];
    rewrite Hb in Heq |- *; unfold traceOf at 1 in Heq;
    unfold resultOf at 1; simpl in Heq |- *.
  - apply app_split in Heq.
    destruct Heq as [(post1 & Heq & ->) | (pre2 & -> & Heq)].
    + destruct (Hm s pre e post1 Heq He) as [(fmt & args & Hh) _].
      rewrite Hr in Hh. discriminate.
    + exact (Hf a _ pre2 e post Heq He).
  - destruct (Hm s pre e post Heq He) as [(fmt & args & Hh) Hlog].
    split; [|exact Hlog]. exists fmt, args. congruence.
Qed.

Lemma haltsOnFailure_forEach {A} (xs : list A) (body : A -> M unit) :
  (forall x, haltsOnFailure (body x)) -> haltsOnFailure (forEach xs body).
Proof.
  intros Hb. induction xs as [|x xs IH]; simpl.
  - apply haltsOnFailure_emits, emits_ret.
  - apply haltsOnFailure_bind; auto.
Qed.

Lemma haltsOnFailure_CommitData (t : TableCollection) :
  haltsOnFailure (CommitData t).
Proof.
  intros s pre e post Heq He.
  destruct (CommitData_fatal t s pre e post Heq He)
    as [(dt & err & _ & Hr & ->) | (vs & err & _ & _ & Hr & ->)].
  - split; [|reflexivity]. unfold buildFatal in Hr. eauto.
  - split; [|reflexivity]. unfold copyFatal in Hr. eauto.
Qed.

Lemma haltsOnFailure_MockTable (tables : list DBTables) :
  haltsOnFailure (MockTable tables).
Proof.
  assert (Hlog : forall lvl fmt args, haltsOnFailure (logf lvl fmt args))
    by (intros; apply haltsOnFailure_emits, emits_logf; reflexivity).
  assert (Hproc : forall e f, isFatalFailure e = false ->
                              haltsOnFailure (procedure e f))
    by (intros e f He; apply haltsOnFailure_emits, emits_procedure;
        now rewrite He).
  unfold MockTable. destruct (0 <? length tables)%nat; [|apply Hlog].
  apply haltsOnFailure_bind; [apply Hlog|]. intros _.
  apply haltsOnFailure_bind.
  - unfold tableMocker.
    apply haltsOnFailure_bind; [apply Hlog|]. intros _.
    apply haltsOnFailure_bind.
    { destruct (negb _); [now apply Hproc|].
      apply haltsOnFailure_emits, emits_ret. }
    intros _. apply haltsOnFailure_bind.
    { apply haltsOnFailure_emits, emits_columnExtractor. reflexivity. }
    intros columns. destruct (0 <? length columns)%nat; [|apply Hlog].
    unfold BackupConstraintsAndStartDataLoading.
    apply haltsOnFailure_bind; [now apply Hproc|]. intros _.
    apply haltsOnFailure_bind; [apply Hlog|]. intros _.
    apply haltsOnFailure_bind.
    { unfold loadTables. apply haltsOnFailure_forEach. intros t.
      unfold loadTable. apply haltsOnFailure_bind; [now apply Hproc|].
      intros _. apply haltsOnFailure_CommitData. }
    intros _. apply haltsOnFailure_bind.
    { apply haltsOnFailure_emits, emits_addData; reflexivity. }
    intros _. apply haltsOnFailure_bind.
    { apply haltsOnFailure_emits, emits_skipTablesWarning. reflexivity. }
    intros _. apply Hlog.
  - intros _. destruct (negb _); [now apply Hproc|].
    apply haltsOnFailure_emits, emits_ret.
Qed.

(** C9. In a table load, a generator error that is not the
    unsupported-datatype one ends the run in [Fatalf] with the table and the
    error as arguments and nothing is done after it; an error of the bulk
    copy ends the run in [Fatalf] with the error as argument, after three
    log lines that give the table, the statement and the payload, and
    nothing else is done after it.  In a whole run of [MockTable] such a
    failure is followed by log lines only and the run ends in [Fatalf]: no
    later table is touched and nothing is tried again. *)
Theorem C9_fatal_failures_end_the_run
    (t : TableCollection) (tables : list DBTables) (s : St) pre e post :
  let tab := tabName (Tbl t) in
  let out := CommitData t s in
  isFatalFailure e = true ->
  (traceOf out = pre ++ e :: post ->
   (exists dt err,
       e = EvBuildData dt (inr err) /\
       resultOf out
       = Halt (HFatalf "Error when building data for table %s: %v"
                 [AStr tab; AStr err]) /\
       post = []) \/
   (exists vs err,
       e = EvCopyFrom (Join vs delimiter)
             (copyStatment tab (map Column (Columns t))) (Some err) /\
       resultOf out
       = Halt (HFatalf "Error during committing data: %v" [AStr err]) /\
       post
       = [EvLog LDebug "Table: %s" [AStr tab];
          EvLog LDebug "Copy Statement: %s"
            [AStr (copyStatment tab (map Column (Columns t)))];
          EvLog LDebug "Data: %s" [AStr (Join vs delimiter)]])) /\
  (traceOf (MockTable tables s) = pre ++ e :: post ->
   (exists fmt args, resultOf (MockTable tables s) = Halt (HFatalf fmt args)) /\
   forallb isLog post = true).
Proof.
  cbv zeta. intros He. split.
  - intros Heq.
    destruct (CommitData_fatal t s pre e post Heq He)
      as [(dt & err & -> & Hr & ->) | (vs & err & _ & -> & Hr & ->)].
    + left. exists dt, err. auto.
    + right. exists vs, err. auto.
  - intros Heq. exact (haltsOnFailure_MockTable tables s pre e post Heq He).
Qed.

(** ** The constraint life cycle *)

Lemma procedure_trace e f s : traceOf (procedure e f s) = [e].
Proof.
  unfold traceOf, procedure. now destruct (f (world s)) as [[why|] w].
Qed.

Lemma procedure_result e f s :
  resultOf (procedure e f s) = Ok tt \/
  exists why, resultOf (procedure e f s) = Halt (HDied why).
Proof.
  unfold resultOf, procedure. destruct (f (world s)) as [[why|] w]; simpl; eauto.
Qed.

Lemma bind_trace {A B} (Q : list Event -> Prop) (m : M A) (f : A -> M B) s :
  (forall a b, Q a -> Q b -> Q (a ++ b)) ->
  Q (traceOf (m s)) ->
  (forall a, resultOf (m s) = Ok a -> Q (traceOf (f a (stateOf (m s))))) ->
  Q (traceOf (bind m f s)).
Proof.
  intros Happ Hm Hf.
  destruct (bind_cases m f s) as [(a & Hr & ->) | (h & Hr & ->)];
    unfold traceOf at 1; simpl; auto.
Qed.

Lemma forEach_trace {A} (Q : list Event -> Prop) (xs : list A) (body : A -> M unit) :
  Q [] -> (forall a b, Q a -> Q b -> Q (a ++ b)) ->
  (forall x s, In x xs -> Q (traceOf (body x s))) ->
  forall s, Q (traceOf (forEach xs body s)).
Proof.
  intros Hnil Happ. induction xs as [|x xs IH]; intros Hb s; simpl.
  - exact Hnil.
  - apply bind_trace; auto.
    + apply Hb. now left.
    + intros _ _. apply IH. intros y s' Hy. apply Hb. now right.
Qed.

Lemma backupFirst_none tr :
  forallb (fun e => negb (isRemove e)) tr = true -> backupFirst tr.
Proof.
  intros H pre tab post Heq. exfalso.
  eapply (no_split isRemove); [exact Heq|exact H|reflexivity].
Qed.

Lemma backupFirst_app a b : backupFirst a -> backupFirst b -> backupFirst (a ++ b).
Proof.
  intros Ha Hb pre tab post Heq. apply app_split in Heq.
  destruct Heq as [(post1 & Heq & _) | (pre2 & -> & Heq)].
  - eapply Ha; eauto.
  - apply in_or_app. right. eapply Hb; eauto.
Qed.

Lemma backupFirst_head tr : backupFirst (EvBackupDDL :: tr).
Proof.
  intros [|p pre] tab post Heq; simpl in Heq; inversion Heq; subst.
  now left.
Qed.

Lemma removedBeforeWrite_none tables tr :
  forallb (fun e => negb (isCopy e)) tr = true -> removedBeforeWrite tables tr.
Proof.
  intros H pre payload stmt err post Heq. exfalso.
  eapply (no_split isCopy); [exact Heq|exact H|reflexivity].
Qed.

Lemma removedBeforeWrite_app tables a b :
  removedBeforeWrite tables a -> removedBeforeWrite tables b ->
  removedBeforeWrite tables (a ++ b).
Proof.
  intros Ha Hb pre payload stmt err post Heq. apply app_split in Heq.
  destruct Heq as [(post1 & Heq & _) | (pre2 & -> & Heq)].
  - eapply Ha; eauto.
  - destruct (Hb _ _ _ _ _ Heq) as (t & Ht & Hst & Hin).
    exists t. repeat split; auto. apply in_or_app. now right.
Qed.

Lemma CommitData_copy_stmt (t : TableCollection) (s : St) p st err :
  In (EvCopyFrom p st err) (traceOf (CommitData t s)) ->
  st = copyStatment (tabName (Tbl t)) (map Column (Columns t)).
Proof.
  intros Hin.
  pose (Q := fun e => match e with
                      | EvCopyFrom _ st' _ =>
                          String.eqb st'
                            (copyStatment (tabName (Tbl t)) (map Column (Columns t)))
                      | _ => true
                      end).
  assert (HQ : emits Q (CommitData t)).
  { apply emits_CommitData; try reflexivity.
    - intros. simpl. apply String.eqb_refl. }
  specialize (HQ s). rewrite forallb_forall in HQ.
  specialize (HQ _ Hin). simpl in HQ. now apply String.eqb_eq in HQ.
Qed.

Lemma removedBeforeWrite_loadTable tables (tc : TableCollection) s :
  In tc (flat_map classified tables) ->
  removedBeforeWrite tables (traceOf (loadTable tc s)).
Proof.
  intros Htc. apply in_classified in Htc. destruct Htc as (Ht & Hc & _).
  destruct (loadTable_run tc s) as [(why & _ & Htr & _) | (w & Heq)].
  - rewrite Htr. now apply removedBeforeWrite_none.
  - cbv zeta in Heq. rewrite Heq. unfold traceOf at 1. simpl.
    intros pre payload stmt err post Hsplit.
    destruct pre as [|p pre]; simpl in Hsplit; inversion Hsplit; subst.
    exists (Tbl tc). split; [exact Ht|]. split; [|now left].
    rewrite <- Hc. eapply CommitData_copy_stmt. rewrite H1.
    apply in_or_app. right. now left.
Qed.

Lemma emits_loadTables Q (tables : list TableCollection) :
  (forall e, isFix e = false -> isBackup e = false -> isExecute e = false ->
             Q e = true) ->
  emits Q (loadTables tables).
Proof.
  intros HQ. unfold loadTables. apply emits_forEach. intros t.
  unfold loadTable. apply emits_bind.
  - apply emits_procedure. now apply HQ.
  - intros _. apply emits_CommitData; intros; now apply HQ.
Qed.

Lemma emits_Backup Q (tables : list TableCollection) :
  (forall e, isFix e = false -> Q e = true) ->
  emits Q (BackupConstraintsAndStartDataLoading tables).
Proof.
  intros HQ. unfold BackupConstraintsAndStartDataLoading.
  apply emits_bind; [apply emits_procedure; now apply HQ|]. intros _.
  apply emits_bind; [apply emits_logf; now apply HQ|]. intros _.
  apply emits_bind; [apply emits_loadTables; intros; now apply HQ|]. intros _.
  apply emits_bind; [apply emits_addData; intros; now apply HQ|]. intros _.
  apply emits_bind; [apply emits_skipTablesWarning; intros; now apply HQ|].
  intros _. apply emits_logf; now apply HQ.
Qed.

Lemma emits_tableMocker Q (tables : list DBTables) :
  (forall e, isFix e = false -> Q e = true) ->
  emits Q (tableMocker tables).
Proof.
  intros HQ. unfold tableMocker.
  apply emits_bind; [apply emits_logf; now apply HQ|]. intros _.
  apply emits_bind.
  { destruct (negb _); [apply emits_procedure; now apply HQ | apply emits_ret]. }
  intros _. apply emits_bind.
  { apply emits_columnExtractor. intros; now apply HQ. }
  intros columns. destruct (0 <? length columns)%nat.
  - now apply emits_Backup.
  - apply emits_logf; now apply HQ.
Qed.

Lemma Backup_head (tables : list TableCollection) s :
  exists tr, traceOf (BackupConstraintsAndStartDataLoading tables s)
             = EvBackupDDL :: tr.
Proof.
  unfold BackupConstraintsAndStartDataLoading.
  destruct (bind_cases (procedure EvBackupDDL (BackupDDL E))
              (fun _ =>
                 Infof "Total numbers of tables to mock: %d"
                   [AInt (Z.of_nat (length tables))] ;;;
                 loadTables tables ;;;
                 addDataIfItsASerialDatatype ;;;
                 skipTablesWarning ;;;
                 Infof "Completed loading mock data to %d tables"
                   [AInt (Z.of_nat (length tables))]) s)
    as [(a & _ & ->) | (h & _ & ->)];
    unfold traceOf at 1; simpl; rewrite procedure_trace; simpl; eauto.
Qed.

Lemma backupFirst_tableMocker (tables : list DBTables) s :
  backupFirst (traceOf (tableMocker tables s)).
Proof.
  unfold tableMocker.
  apply bind_trace; [apply backupFirst_app| now apply backupFirst_none |].
  intros _ _.
  apply bind_trace; [apply backupFirst_app| |].
  { apply backupFirst_none.
    destruct (negb _); [rewrite procedure_trace|]; reflexivity. }
  intros _ _.
  apply bind_trace; [apply backupFirst_app| |].
  { apply backupFirst_none. apply emits_columnExtractor. reflexivity. }
  intros columns _. destruct (0 <? length columns)%nat.
  - destruct (Backup_head columns
                (stateOf (columnExtractor tables
                   (stateOf ((if negb (DontPrompt (cmdOptions cfg))
                              then procedure EvConfirm (YesOrNoConfirmation E)
                              else ret tt)
                               (stateOf (Infof "Beginning the mocking process for the tables" [] s)))))))
      as [tr ->].
    apply backupFirst_head.
  - now apply backupFirst_none.
Qed.

Lemma removedBeforeWrite_tableMocker (tables : list DBTables) s :
  removedBeforeWrite tables (traceOf (tableMocker tables s)).
Proof.
  unfold tableMocker.
  apply bind_trace;
    [apply removedBeforeWrite_app| now apply removedBeforeWrite_none |].
  intros _ _.
  apply bind_trace; [apply removedBeforeWrite_app| |].
  { apply removedBeforeWrite_none.
    destruct (negb _); [rewrite procedure_trace|]; reflexivity. }
  intros _ _.
  apply bind_trace; [apply removedBeforeWrite_app| |].
  { apply removedBeforeWrite_none. apply emits_columnExtractor. reflexivity. }
  intros columns Hcols. rewrite columnExtractor_run in Hcols.
  unfold resultOf in Hcols. simpl in Hcols. inversion Hcols; subst columns.
  destruct (0 <? length _)%nat; [|now apply removedBeforeWrite_none].
  unfold BackupConstraintsAndStartDataLoading.
  apply bind_trace; [apply removedBeforeWrite_app| |].
  { apply removedBeforeWrite_none. now rewrite procedure_trace. }
  intros _ _.
  apply bind_trace;
    [apply removedBeforeWrite_app| now apply removedBeforeWrite_none |].
  intros _ _.
  apply bind_trace; [apply removedBeforeWrite_app| |].
  { unfold loadTables. apply forEach_trace.
    - now apply removedBeforeWrite_none.
    - apply removedBeforeWrite_app.
    - intros tc s' Htc. now apply removedBeforeWrite_loadTable. }
  intros _ _.
  apply bind_trace; [apply removedBeforeWrite_app| |].
  { apply removedBeforeWrite_none. apply emits_addData; reflexivity. }
  intros _ _.
  apply bind_trace; [apply removedBeforeWrite_app| |].
  { apply removedBeforeWrite_none. apply emits_skipTablesWarning; reflexivity. }
  intros _ _. now apply removedBeforeWrite_none.
Qed.

Lemma not_in_of_forallb (P : Event -> bool) e l :
  forallb (fun a => negb (P a)) l = true -> P e = true -> ~ In e l.
Proof.
  intros H He Hin. rewrite forallb_forall in H. specialize (H e Hin).
  rewrite He in H. discriminate.
Qed.

Lemma resultOf_mk {A} (r : Res A) (s : St) (t : list Event) :
  resultOf (r, s, t) = r.
Proof. reflexivity. Qed.

Lemma stateOf_run {A} (r : Res A) (s : St) (t : list Event) :
  stateOf (r, s, t) = s.
Proof. reflexivity. Qed.

Lemma traceOf_mk {A} (r : Res A) (s : St) (t : list Event) :
  traceOf (r, s, t) = t.
Proof. reflexivity. Qed.

Lemma MockTable_cons (t0 : DBTables) (ts : list DBTables) (s : St) :
  let tables := t0 :: ts in
  let inner :=
    bind (tableMocker tables)
      (fun _ => if negb (IgnoreConstraint (cmdOptions cfg))
                then procedure EvFixConstraints (FixConstraints E)
                else ret tt) s in
  MockTable tables s
  = (resultOf inner, stateOf inner,
     EvLog LDebug "Total number of tables to mock: %d"
       [AInt (Z.of_nat (length tables))] :: traceOf inner).
Proof.
  cbv zeta. unfold MockTable.
  change (0 <? length (t0 :: ts))%nat with true. cbv iota.
  unfold bind at 1, Debugf, logf.
  unfold resultOf, stateOf, traceOf.
  now destruct (bind (tableMocker (t0 :: ts)) _ s) as [[r s1] t1].
Qed.

Lemma MockTable_shape (tables : list DBTables) (s : St) :
  let out := MockTable tables s in
  exists tr0,
    forallb (fun e => negb (isFix e)) tr0 = true /\
    backupFirst tr0 /\
    removedBeforeWrite tables tr0 /\
    ((traceOf out = tr0 /\
      (tables = [] \/ IgnoreConstraint (cmdOptions cfg) = true \/
       exists h, resultOf out = Halt h))
     \/ (traceOf out = tr0 ++ [EvFixConstraints] /\
         tables <> [] /\ IgnoreConstraint (cmdOptions cfg) = false /\
         (resultOf out = Ok tt \/ exists why, resultOf out = Halt (HDied why)))).
Proof.
  cbv zeta. destruct tables as [|t0 ts].
  - exists [EvLog LWarn "No table available to mock the data, closing the program" []].
    split; [reflexivity|]. split; [now apply backupFirst_none|].
    split; [now apply removedBeforeWrite_none|]. left. split; auto.
  - rewrite MockTable_cons. cbv zeta.
    set (tables := t0 :: ts).
    exists (EvLog LDebug "Total number of tables to mock: %d"
              [AInt (Z.of_nat (length tables))]
            :: traceOf (tableMocker tables s)).
    split; [|split; [|split]].
    + simpl. apply emits_tableMocker. intros e He. now rewrite He.
    + apply (backupFirst_app [_]); [now apply backupFirst_none|].
      apply backupFirst_tableMocker.
    + apply (removedBeforeWrite_app _ [_]); [now apply removedBeforeWrite_none|].
      apply removedBeforeWrite_tableMocker.
    + match goal with
      | |- context [bind (tableMocker tables) ?f s] =>
          destruct (bind_cases (tableMocker tables) f s)
            as [(a & Hr & Hb) | (h & Hr & Hb)]; rewrite Hb
      end.
      * rewrite !traceOf_mk, !resultOf_mk.
        destruct (IgnoreConstraint (cmdOptions cfg)); cbn [negb].
        -- left. split; auto.
           unfold traceOf at 2, ret. cbn [fst snd]. now rewrite app_nil_r.
        -- right. rewrite procedure_trace. split; [reflexivity|].
           split; [discriminate|]. split; [reflexivity|].
           apply procedure_result.
      * rewrite !traceOf_mk, !resultOf_mk. left. split; auto.
        right; right. exists h. reflexivity.
Qed.

(** C8, as the code has it.  In every run the DDL backup comes before any
    removal of constraints; every copy goes to a table of the input whose
    constraints were removed before; constraints are restored at most once
    and nothing follows the restoration.  They are restored when the run
    was given at least one table, restoration is not disabled and the run
    ends normally; they are not restored when restoration is disabled, when
    the table list is empty or when the run ends in a fatal error. *)
Theorem C8_constraint_life_cycle (tables : list DBTables) (s : St) :
  let out := MockTable tables s in
  let tr := traceOf out in
  (forall pre tab post,
     tr = pre ++ EvRemoveConstraints tab :: post -> In EvBackupDDL pre) /\
  (forall pre payload stmt err post,
     tr = pre ++ EvCopyFrom payload stmt err :: post ->
     exists t,
       In t tables /\
       stmt = copyStatment (tabName t) (map Column (keptColumns t)) /\
       In (EvRemoveConstraints (tabName t)) pre) /\
  (forall pre post,
     tr = pre ++ EvFixConstraints :: post ->
     post = [] /\ ~ In EvFixConstraints pre) /\
  (tables <> [] -> IgnoreConstraint (cmdOptions cfg) = false ->
   resultOf out = Ok tt -> In EvFixConstraints tr) /\
  (IgnoreConstraint (cmdOptions cfg) = true -> ~ In EvFixConstraints tr) /\
  (tables = [] -> ~ In EvFixConstraints tr) /\
  (forall fmt args,
     resultOf out = Halt (HFatalf fmt args) -> ~ In EvFixConstraints tr).
Proof.
  cbv zeta.
  destruct (MockTable_shape tables s)
    as (tr0 & Hfix & Hbk & Hrm &
        [(Ht & Hwhy) | (Ht & Hne & Hig & Hres)]);
    rewrite Ht.
  - split; [exact Hbk|]. split; [exact Hrm|]. split.
    { intros pre post Heq. exfalso.
      eapply (no_split isFix); [exact Heq|exact Hfix|reflexivity]. }
    assert (Hno : ~ In EvFixConstraints tr0)
      by (now apply (not_in_of_forallb isFix)).
    split; [|split; [|split]]; auto.
    intros Hne Hig Hok. exfalso.
    destruct Hwhy as [Hnil | [Htrue | (h & Hh)]]; congruence.
  - split; [|split; [|split; [|split; [|split; [|split]]]]].
    + apply backupFirst_app; [exact Hbk | now apply backupFirst_none].
    + apply removedBeforeWrite_app;
        [exact Hrm | now apply removedBeforeWrite_none].
    + intros pre post Heq.
      apply (split_cases isFix) in Heq; [|exact Hfix|reflexivity].
      destruct Heq as [(-> & _ & ->) | (pre2 & _ & Hnil)].
      * split; [reflexivity|]. now apply (not_in_of_forallb isFix).
      * destruct pre2; discriminate Hnil.
    + intros _ _ _. apply in_or_app. right. now left.
    + congruence.
    + congruence.
    + intros fmt args Hr. exfalso.
      destruct Hres as [Hok | (why & Hd)]; congruence.
Qed.

(** When classification leaves no table collection, the run never reaches
    the loader of sequence-only tables. *)
Lemma MockTable_without_collections (tables : list DBTables) (s : St) :
  flat_map classified tables = [] ->
  forallb (fun e => negb (isExecute e)) (traceOf (MockTable tables s)) = true.
Proof.
  intros Hnone.
  set (Q := fun tr => forallb (fun e => negb (isExecute e)) tr = true).
  assert (Happ : forall a b, Q a -> Q b -> Q (a ++ b)).
  { unfold Q. intros a b Ha Hb. now rewrite forallb_app, Ha, Hb. }
  change (Q (traceOf (MockTable tables s))).
  unfold MockTable. destruct (0 <? length tables)%nat; [|reflexivity].
  apply bind_trace; auto; [reflexivity|]. intros _ _.
  apply bind_trace; auto.
  - unfold tableMocker.
    apply bind_trace; auto; [reflexivity|]. intros _ _.
    apply bind_trace; auto.
    { destruct (negb _); [rewrite procedure_trace|]; reflexivity. }
    intros _ _. apply bind_trace; auto.
    { apply emits_columnExtractor. reflexivity. }
    intros columns Hcols. rewrite columnExtractor_run in Hcols.
    unfold resultOf in Hcols. simpl in Hcols. inversion Hcols; subst columns.
    rewrite Hnone. reflexivity.
  - intros _ _. destruct (negb _); [rewrite procedure_trace|]; reflexivity.
Qed.

(** The loader itself: as long as no insertion fails, it issues for each
    registered table the configured number of insertions, one statement
    each. *)
Lemma insertLoop_run (t : string) (n : nat) (s : St) :
  (forall q w, fst (ExecuteDB E q w) = None) ->
  resultOf (insertLoop t n s) = Ok tt /\
  traceOf (insertLoop t n s) = repeat (EvExecuteDB (insertQuery t) None) n.
Proof.
  intros Hok. revert s. induction n as [|n IH]; intros s; simpl.
  - auto.
  - unfold bind, callExecuteDB.
    pose proof (Hok (insertQuery t) (world s)) as H.
    destruct (ExecuteDB E (insertQuery t) (world s)) as [err w].
    simpl in H. subst err.
    specialize (IH (mkSt w (skippedTab s) (oneColumnTable s))).
    destruct (insertLoop t n _) as [[r s2] t2].
    unfold resultOf, traceOf in *. simpl in *.
    destruct IH as [-> ->]. auto.
Qed.

Lemma insertAll_run (tabs : list string) (s : St) :
  (forall q w, fst (ExecuteDB E q w) = None) ->
  let run :=
    forEach tabs
      (fun t =>
         Debugf "Loading data for one column serial data type table %s" [AStr t] ;;;
         insertLoop t (Z.to_nat (Rows (cmdOptions cfg)))) s in
  resultOf run = Ok tt /\
  filter isExecute (traceOf run)
  = flat_map
      (fun t => repeat (EvExecuteDB (insertQuery t) None)
                  (Z.to_nat (Rows (cmdOptions cfg))))
      tabs.
Proof.
  intros Hok. cbv zeta. revert s.
  induction tabs as [|t tabs IH]; intros s; simpl.
  - auto.
  - unfold bind, Debugf, logf.
    destruct (insertLoop_run t (Z.to_nat (Rows (cmdOptions cfg))) s Hok)
      as [Hr Ht].
    destruct (insertLoop t _ s) as [[r s1] t1].
    unfold resultOf, traceOf in Hr, Ht. simpl in Hr, Ht. subst r t1.
    specialize (IH s1). unfold bind, Debugf, logf in IH.
    destruct (forEach tabs _ s1) as [[r2 s2] t2].
    unfold resultOf, traceOf in *. simpl in *.
    destruct IH as [-> IH]. split; [reflexivity|].
    rewrite filter_app, IH. f_equal.
    clear. induction (Z.to_nat (Rows (cmdOptions cfg))) as [|n IHn]; simpl;
      [reflexivity | now rewrite IHn].
Qed.

Lemma addData_run (s : St) :
  (forall q w, fst (ExecuteDB E q w) = None) ->
  resultOf (addDataIfItsASerialDatatype s) = Ok tt /\
  filter isExecute (traceOf (addDataIfItsASerialDatatype s))
  = flat_map
      (fun t => repeat (EvExecuteDB (insertQuery t) None)
                  (Z.to_nat (Rows (cmdOptions cfg))))
      (oneColumnTable s).
Proof.
  intros Hok. unfold addDataIfItsASerialDatatype.
  rewrite (bind_ok getOneColumnTable _ s (oneColumnTable s) eq_refl).
  rewrite resultOf_mk, traceOf_mk.
  change (stateOf (getOneColumnTable s)) with s.
  change (traceOf (getOneColumnTable s)) with (@nil Event).
  exact (insertAll_run (oneColumnTable s) s Hok).
Qed.

(** ** Further properties of [worker.go] *)

(** *** Qualified names *)

Lemma split_at_quote (a b r r' : string) :
  quoteFree a = true -> quoteFree b = true ->
  a @@ String (ascii_of_nat 34) r = b @@ String (ascii_of_nat 34) r' ->
  a = b /\ r = r'.
Proof.
  revert b. induction a as [|c a IH]; intros [|d b] Ha Hb Heq; simpl in *.
  - inversion Heq. auto.
  - inversion Heq; subst d. apply andb_true_iff in Hb. destruct Hb as [Hb _].
    rewrite Ascii.eqb_refl in Hb. discriminate.
  - inversion Heq; subst c. apply andb_true_iff in Ha. destruct Ha as [Ha _].
    rewrite Ascii.eqb_refl in Ha. discriminate.
  - inversion Heq; subst d.
    apply andb_true_iff in Ha. destruct Ha as [_ Ha].
    apply andb_true_iff in Hb. destruct Hb as [_ Hb].
    destruct (IH b Ha Hb H1) as [-> ->]. auto.
Qed.

(** X1. On schema and table names without a double quote,
    [GenerateTableName] is injective: two tables with the same qualified
    name have the same schema and the same table name. *)
Theorem GenerateTableName_injective (tab1 schema1 tab2 schema2 : string) :
  quoteFree tab1 = true -> quoteFree schema1 = true ->
  quoteFree tab2 = true -> quoteFree schema2 = true ->
  GenerateTableName tab1 schema1 = GenerateTableName tab2 schema2 ->
  tab1 = tab2 /\ schema1 = schema2.
Proof.
  intros Ht1 Hs1 Ht2 Hs2 Heq. unfold GenerateTableName, dq in Heq.
  simpl in Heq. inversion Heq as [H]. clear Heq.
  apply split_at_quote in H; auto. destruct H as [-> H].
  inversion H as [H']. clear H.
  apply split_at_quote in H'; auto. tauto.
Qed.

(** *** Classification as a whole *)

Lemma map_Tbl_classified (tables : list DBTables) :
  map Tbl (flat_map classified tables) = filter hasKeptColumn tables.
Proof.
  induction tables as [|t ts IH]; simpl; [reflexivity|].
  rewrite map_app, IH. f_equal.
  unfold classified, hasKeptColumn, keptColumns.
  induction (extractColumns t) as [|c cs IHc]; simpl; [reflexivity|].
  destruct (negb (isItSerialDatatype c)); simpl; [reflexivity|].
  destruct (existsb _ cs); destruct (filter _ cs); simpl in *;
    try reflexivity; try discriminate; auto.
Qed.

(** X2. [columnExtractor] always returns (the index into the column slice
    never panics), only logs, leaves the world and [skippedTab] alone, and
    returns one TableCollection, with at least one column, for each listed
    table that has a column that is not sequence-backed, in the order of
    the input. *)
Theorem columnExtractor_keeps_order (tables : list DBTables) (s : St) :
  exists collection,
    resultOf (columnExtractor tables s) = Ok collection /\
    map Tbl collection = filter hasKeptColumn tables /\
    (forall tc, In tc collection -> Columns tc <> []) /\
    world (stateOf (columnExtractor tables s)) = world s /\
    skippedTab (stateOf (columnExtractor tables s)) = skippedTab s /\
    forallb isLog (traceOf (columnExtractor tables s)) = true.
Proof.
  exists (flat_map classified tables).
  split; [|split; [|split; [|split; [|split]]]].
  - now rewrite columnExtractor_run.
  - apply map_Tbl_classified.
  - intros tc Htc. apply in_classified in Htc. tauto.
  - now rewrite columnExtractor_run.
  - now rewrite columnExtractor_run.
  - apply emits_columnExtractor. reflexivity.
Qed.

(** *** The session of a table load *)

Lemma loadTrace_all (Q : Event -> bool) tab cols rows e :
  (forall l f a, Q (EvLog l f a) = true) ->
  (forall dt r, Q (EvBuildData dt r) = true) ->
  (forall p st err, Q (EvCopyFrom p st err) = true) ->
  forallb Q (loadTrace tab cols rows e) = true.
Proof.
  intros HL HB HP. unfold loadTrace. rewrite forallb_app.
  assert (Hrows : forallb Q (flat_map (rowEvents tab cols) rows) = true)
    by (apply rows_all; auto).
  rewrite Hrows. simpl.
  destruct e; simpl; unfold skipLog, copyEvent;
    rewrite ?forallb_app; simpl;
    rewrite ?okBuilds_all by (intros; apply HB);
    rewrite ?HB, ?HL, ?HP; reflexivity.
Qed.

Lemma not_in_forallb (P : Event -> bool) e l :
  forallb P l = true -> P e = false -> ~ In e l.
Proof.
  intros H He Hin. rewrite forallb_forall in H. specialize (H e Hin).
  congruence.
Qed.

(** X3. A table load opens one database session, right after its first log
    line.  When the load returns, after a full load or a skip, the session
    is closed exactly once, as the last thing the load does; when the load
    ends the process, the session is never closed. *)
Theorem CommitData_session (t : TableCollection) (s : St) :
  let out := CommitData t s in
  exists rest,
    traceOf out = startLog (tabName (Tbl t)) :: EvConnectDB :: rest /\
    ~ In EvConnectDB rest /\
    (resultOf out = Ok tt ->
     exists body, rest = body ++ [EvCloseDB] /\ ~ In EvCloseDB body) /\
    ((exists h, resultOf out = Halt h) -> ~ In EvCloseDB rest).
Proof.
  cbv zeta.
  destruct (CommitData_spec t s)
    as [_ [(why & Hr & Ht & _) | (rows & e & Ht & _ & Hend)]].
  - exists []. rewrite Ht, Hr. repeat split; auto; discriminate.
  - exists (loadTrace (tabName (Tbl t)) (Columns t) rows e ++ closing e).
    assert (Hc : forallb (fun a => negb (isConnect a))
                   (loadTrace (tabName (Tbl t)) (Columns t) rows e) = true)
      by (apply loadTrace_all; reflexivity).
    assert (Hx : forallb (fun a => negb (isClose a))
                   (loadTrace (tabName (Tbl t)) (Columns t) rows e) = true)
      by (apply loadTrace_all; reflexivity).
    split; [exact Ht|]. split; [|split].
    + apply (not_in_forallb (fun a => negb (isConnect a))); [|reflexivity].
      rewrite forallb_app, Hc. now destruct e.
    + intros Hok.
      exists (loadTrace (tabName (Tbl t)) (Columns t) rows e).
      split.
      * destruct e; simpl in Hend; destruct Hend as [Hr _];
          try reflexivity; rewrite Hok in Hr; discriminate.
      * now apply (not_in_forallb (fun a => negb (isClose a))).
    + intros [h Hh].
      apply (not_in_forallb (fun a => negb (isClose a))); [|reflexivity].
      rewrite forallb_app, Hx.
      destruct e; simpl in Hend; destruct Hend as [Hr _];
        try reflexivity; rewrite Hh in Hr; discriminate.
Qed.

(** X4. With a row count of zero or less, a table load asks the generator
    for nothing and copies nothing; it opens the session, and closes it
    unless opening it ended the process; no table is skipped. *)
Theorem CommitData_without_rows (t : TableCollection) (s : St) :
  (Rows (cmdOptions cfg) <= 0)%Z ->
  let out := CommitData t s in
  filter isBuild (traceOf out) = [] /\
  filter isCopy (traceOf out) = [] /\
  skippedTab (stateOf out) = skippedTab s /\
  ((resultOf out = Ok tt /\
    traceOf out = [startLog (tabName (Tbl t)); EvConnectDB; EvCloseDB]) \/
   (exists why, resultOf out = Halt (HDied why) /\
    traceOf out = [startLog (tabName (Tbl t)); EvConnectDB])).
Proof.
  intros Hrows. cbv zeta.
  destruct (CommitData_spec t s)
    as [_ [(why & Hr & Ht & Hs) | (rows & e & Ht & _ & Hend)]].
  - rewrite Ht. repeat split; auto. right. exists why. auto.
  - replace (Z.to_nat (Rows (cmdOptions cfg))) with 0%nat in Hend by lia.
    destruct e; simpl in Hend; try (exfalso; lia).
    destruct Hend as (Hr & Hlen & Hs).
    destruct rows; [|discriminate Hlen].
    rewrite Ht. simpl. repeat split; auto.
Qed.

(** *** The table loop *)

Lemma filter_none (P : Event -> bool) l :
  forallb (fun a => negb (P a)) l = true -> filter P l = [].
Proof.
  induction l as [|e l IH]; simpl; [reflexivity|].
  intros H. apply andb_true_iff in H. destruct H as [He Hl].
  apply negb_true_iff in He. rewrite He. auto.
Qed.

Lemma loadTable_removes (t : TableCollection) (s : St) :
  filter isRemove (traceOf (loadTable t s))
  = [EvRemoveConstraints (tabName (Tbl t))].
Proof.
  destruct (loadTable_run t s) as [(why & _ & Ht & _) | (w & Heq)].
  - now rewrite Ht.
  - cbv zeta in Heq. rewrite Heq, traceOf_mk. simpl. f_equal.
    apply filter_none. apply emits_CommitData; reflexivity.
Qed.

Lemma loadTable_skipped (t : TableCollection) (s : St) :
  skippedTab (stateOf (loadTable t s)) = skippedTab s \/
  skippedTab (stateOf (loadTable t s)) = skippedTab s ++ [tabName (Tbl t)].
Proof.
  destruct (loadTable_spec t s)
    as [_ [(why & _ & _ & Hs) | (rows & e & _ & _ & Hend)]]; auto.
  destruct e; simpl in Hend; tauto.
Qed.

Lemma markedNames_cons t tcs (b : bool) marks :
  markedNames (t :: tcs) (b :: marks)
  = (if b then [tabName (Tbl t)] else []) ++ markedNames tcs marks.
Proof. unfold markedNames. simpl. now destruct b. Qed.

Lemma markedNames_none tcs :
  markedNames tcs (repeat false (length tcs)) = [].
Proof.
  induction tcs as [|t tcs IH]; [reflexivity|].
  simpl repeat. now rewrite markedNames_cons, IH.
Qed.

Lemma loadTables_oneColumnTable (tcs : list TableCollection) :
  forall s, oneColumnTable (stateOf (loadTables tcs s)) = oneColumnTable s.
Proof.
  unfold loadTables.
  induction tcs as [|t tcs IH]; intros s; [reflexivity|].
  simpl forEach.
  pose proof (loadTable_spec t s) as [Hone _].
  destruct (bind_cases (loadTable t) (fun _ => forEach tcs loadTable) s)
    as [(a & Hr & ->) | (h & Hr & ->)]; rewrite stateOf_run.
  - rewrite IH. exact Hone.
  - exact Hone.
Qed.

(** X6. The table loop never touches [oneColumnTable], and what it appends
    to [skippedTab] are names of tables of its list, in the order of the
    list and at most one per table; nothing already in [skippedTab] is
    removed or moved. *)
Theorem loadTables_skips_in_order (tcs : list TableCollection) (s : St) :
  let out := loadTables tcs s in
  oneColumnTable (stateOf out) = oneColumnTable s /\
  exists marks,
    length marks = length tcs /\
    skippedTab (stateOf out) = skippedTab s ++ markedNames tcs marks.
Proof.
  cbv zeta. revert s. unfold loadTables.
  induction tcs as [|t tcs IH]; intros s.
  - split; [reflexivity|]. exists []. split; [reflexivity|].
    simpl. unfold stateOf, ret. simpl. now rewrite app_nil_r.
  - simpl forEach.
    pose proof (loadTable_spec t s) as [Hone _].
    destruct (bind_cases (loadTable t) (fun _ => forEach tcs loadTable) s)
      as [(a & Hr & ->) | (h & Hr & ->)]; rewrite stateOf_run.
    + destruct (IH (stateOf (loadTable t s))) as [Hone2 (marks & Hlen & Hsk)].
      split; [congruence|].
      destruct (loadTable_skipped t s) as [Hs | Hs].
      * exists (false :: marks). split; [simpl; congruence|].
        rewrite markedNames_cons. simpl. congruence.
      * exists (true :: marks). split; [simpl; congruence|].
        rewrite markedNames_cons, Hsk, Hs. now rewrite <- app_assoc.
    + split; [exact Hone|].
      destruct (loadTable_skipped t s) as [Hs | Hs].
      * exists (false :: repeat false (length tcs)).
        split; [simpl; now rewrite repeat_length|].
        rewrite markedNames_cons, markedNames_none. simpl.
        now rewrite app_nil_r.
      * exists (true :: repeat false (length tcs)).
        split; [simpl; now rewrite repeat_length|].
        now rewrite markedNames_cons, markedNames_none.
Qed.

(** X7. The table loop takes the tables in the order of its list: the
    constraint removals it asks for are those of the first [k] tables, in
    order, one each; when the loop returns, [k] is the whole list. *)
Theorem loadTables_in_order (tcs : list TableCollection) (s : St) :
  let out := loadTables tcs s in
  exists k,
    (k <= length tcs)%nat /\
    filter isRemove (traceOf out)
    = map (fun t => EvRemoveConstraints (tabName (Tbl t))) (firstn k tcs) /\
    (resultOf out = Ok tt -> k = length tcs).
Proof.
  cbv zeta. revert s. unfold loadTables.
  induction tcs as [|t tcs IH]; intros s.
  - exists 0%nat. simpl. auto.
  - simpl forEach.
    destruct (bind_cases (loadTable t) (fun _ => forEach tcs loadTable) s)
      as [(a & Hr & ->) | (h & Hr & ->)];
      rewrite traceOf_mk, resultOf_mk.
    + destruct (IH (stateOf (loadTable t s))) as (k & Hk & Hf & Hok).
      exists (S k). split; [simpl; lia|]. split.
      * rewrite filter_app, loadTable_removes, Hf. reflexivity.
      * intros H. simpl. f_equal. auto.
    + exists 1%nat. split; [simpl; lia|]. split.
      * rewrite loadTable_removes. reflexivity.
      * discriminate.
Qed.

(** *** The loader of sequence-only tables *)

Lemma insertLoop_spec (t : string) (n : nat) :
  forall s,
    let out := insertLoop t n s in
    skippedTab (stateOf out) = skippedTab s /\
    oneColumnTable (stateOf out) = oneColumnTable s /\
    ((resultOf out = Ok tt /\
      traceOf out = repeat (EvExecuteDB (insertQuery t) None) n) \/
     (exists k err,
        (k < n)%nat /\
        resultOf out = Halt (insertFatal t err) /\
        traceOf out
        = repeat (EvExecuteDB (insertQuery t) None) k
            ++ [EvExecuteDB (insertQuery t) (Some err)])).
Proof.
  induction n as [|n IH]; intros s; simpl.
  - repeat split; auto.
  - unfold bind, callExecuteDB.
    destruct (ExecuteDB E (insertQuery t) (world s)) as [[err|] w]; simpl.
    + repeat split; auto. right. exists 0%nat, err. repeat split; auto. lia.
    + specialize (IH (mkSt w (skippedTab s) (oneColumnTable s))).
      destruct (insertLoop t n _) as [[r s2] t2].
      unfold resultOf, stateOf, traceOf in *. simpl in *.
      destruct IH as (Hs & Ho & [[-> ->] | (k & err & Hk & -> & ->)]).
      * repeat split; auto.
      * repeat split; auto. right. exists (S k), err.
        repeat split; auto. lia.
Qed.

Lemma insertAll_spec (tabs : list string) :
  forall s,
    let out :=
      forEach tabs
        (fun t =>
           Debugf "Loading data for one column serial data type table %s" [AStr t] ;;;
           insertLoop t (Z.to_nat (Rows (cmdOptions cfg)))) s in
    skippedTab (stateOf out) = skippedTab s /\
    oneColumnTable (stateOf out) = oneColumnTable s /\
    ((resultOf out = Ok tt /\ traceOf out = flat_map loaderEvents tabs) \/
     (exists done t rest k err,
        tabs = done ++ t :: rest /\
        (k < Z.to_nat (Rows (cmdOptions cfg)))%nat /\
        resultOf out = Halt (insertFatal t err) /\
        traceOf out
        = flat_map loaderEvents done
            ++ loaderLog t :: repeat (EvExecuteDB (insertQuery t) None) k
            ++ [EvExecuteDB (insertQuery t) (Some err)])).
Proof.
  induction tabs as [|t tabs IH]; intros s; simpl.
  - repeat split; auto.
  - unfold bind, Debugf, logf.
    pose proof (insertLoop_spec t (Z.to_nat (Rows (cmdOptions cfg))) s) as Hl.
    destruct (insertLoop t _ s) as [[r s1] t1].
    unfold resultOf, stateOf, traceOf in Hl. simpl in Hl.
    destruct Hl as (Hs & Ho & [[-> ->] | (k & err & Hk & -> & ->)]).
    + specialize (IH s1). unfold bind, Debugf, logf in IH.
      destruct (forEach tabs _ s1) as [[r2 s2] t2].
      unfold resultOf, stateOf, traceOf in *. simpl in *.
      destruct IH as (Hs2 & Ho2 &
                      [[-> ->] | (done & t' & rest & k & err & -> & Hk & -> & ->)]).
      * split; [congruence|]. split; [congruence|]. left. split; auto.
      * split; [congruence|]. split; [congruence|]. right.
        exists (t :: done), t', rest, k, err. repeat split; auto.
        simpl. unfold loaderEvents at 1, inserts, loaderLog.
        simpl. now rewrite <- !app_assoc.
    + unfold resultOf, stateOf, traceOf. simpl.
      split; [exact Hs|]. split; [exact Ho|]. right.
      exists [], t, tabs, k, err. repeat split; auto.
Qed.

Lemma addData_spec (s : St) :
  let out := addDataIfItsASerialDatatype s in
  skippedTab (stateOf out) = skippedTab s /\
  oneColumnTable (stateOf out) = oneColumnTable s /\
  ((resultOf out = Ok tt /\
    traceOf out = flat_map loaderEvents (oneColumnTable s)) \/
   (exists done t rest k err,
      oneColumnTable s = done ++ t :: rest /\
      (k < Z.to_nat (Rows (cmdOptions cfg)))%nat /\
      resultOf out = Halt (insertFatal t err) /\
      traceOf out
      = flat_map loaderEvents done
          ++ loaderLog t :: repeat (EvExecuteDB (insertQuery t) None) k
          ++ [EvExecuteDB (insertQuery t) (Some err)])).
Proof.
  cbv zeta. unfold addDataIfItsASerialDatatype.
  rewrite (bind_ok getOneColumnTable _ s (oneColumnTable s) eq_refl).
  rewrite resultOf_mk, traceOf_mk, stateOf_run.
  change (stateOf (getOneColumnTable s)) with s.
  change (traceOf (getOneColumnTable s)) with (@nil Event).
  exact (insertAll_spec (oneColumnTable s) s).
Qed.

Lemma loaderEvents_ok (tabs : list string) :
  forallb (fun a => negb (isFailedExecute a)) (flat_map loaderEvents tabs) = true.
Proof.
  induction tabs as [|t tabs IH]; simpl; [reflexivity|].
  rewrite forallb_app, IH. unfold inserts.
  induction (Z.to_nat (Rows (cmdOptions cfg))) as [|n IHn]; simpl; auto.
Qed.

Lemma repeat_ok q n :
  forallb (fun a => negb (isFailedExecute a)) (repeat (EvExecuteDB q None) n)
  = true.
Proof. induction n; simpl; auto. Qed.

(** X8. When the loader of sequence-only tables returns, it has taken the
    tables of [oneColumnTable] in their order and issued for each its log
    line and then exactly the configured number of insertions, every one
    the same single default-values statement and every one successful; it
    changes neither [oneColumnTable] nor [skippedTab]. *)
Theorem addData_inserts_rows (s : St) :
  let out := addDataIfItsASerialDatatype s in
  resultOf out = Ok tt ->
  traceOf out
  = flat_map
      (fun t =>
         EvLog LDebug "Loading data for one column serial data type table %s"
           [AStr t]
         :: repeat (EvExecuteDB ("INSERT INTO " @@ t @@ " default values;") None)
              (Z.to_nat (Rows (cmdOptions cfg))))
      (oneColumnTable s) /\
  oneColumnTable (stateOf out) = oneColumnTable s /\
  skippedTab (stateOf out) = skippedTab s.
Proof.
  cbv zeta. intros Hok.
  destruct (addData_spec s)
    as (Hs & Ho & [[_ Ht] | (done & t & rest & k & err & _ & _ & Hr & _)]).
  - repeat split; auto.
  - rewrite Hok in Hr. discriminate.
Qed.

(** X9. An insertion that fails ends the loader of sequence-only tables
    on the spot: the failed statement is the last thing it does, it is the
    insertion into a table of [oneColumnTable], and the run ends in
    [Fatalf] with that table and the error as arguments. *)
Theorem addData_failure_is_fatal (s : St) pre q err post :
  let out := addDataIfItsASerialDatatype s in
  traceOf out = pre ++ EvExecuteDB q (Some err) :: post ->
  post = [] /\
  exists t,
    In t (oneColumnTable s) /\
    q = "INSERT INTO " @@ t @@ " default values;" /\
    resultOf out
    = Halt (HFatalf "Error when loading the serial datatype for table %s, err: %v"
              [AStr t; AStr err]).
Proof.
  cbv zeta. intros Heq.
  destruct (addData_spec s)
    as (_ & _ & [[_ Ht] | (done & t & rest & k & er & Htabs & _ & Hr & Ht)]);
    rewrite Ht in Heq.
  - exfalso. eapply (no_split isFailedExecute);
      [exact Heq | apply loaderEvents_ok | reflexivity].
  - replace (flat_map loaderEvents done
               ++ loaderLog t :: repeat (EvExecuteDB (insertQuery t) None) k
               ++ [EvExecuteDB (insertQuery t) (Some er)])
      with ((flat_map loaderEvents done
               ++ loaderLog t :: repeat (EvExecuteDB (insertQuery t) None) k)
              ++ EvExecuteDB (insertQuery t) (Some er) :: [])
      in Heq by (rewrite <- app_assoc; reflexivity).
    apply (split_cases isFailedExecute) in Heq; [| |reflexivity].
    + destruct Heq as [(_ & Hx & ->) | (pre2 & _ & Hnil)].
      * inversion Hx; subst. split; [reflexivity|].
        exists t. split; [|split; [reflexivity|exact Hr]].
        rewrite Htabs. apply in_or_app. right. now left.
      * destruct pre2; discriminate Hnil.
    + rewrite forallb_app, loaderEvents_ok. simpl. apply repeat_ok.
Qed.

(** *** Runs that complete *)

Lemma bind_ok_inv {A B} (m : M A) (f : A -> M B) s (b : B) :
  resultOf (bind m f s) = Ok b ->
  exists a,
    resultOf (m s) = Ok a /\
    resultOf (f a (stateOf (m s))) = Ok b /\
    stateOf (bind m f s) = stateOf (f a (stateOf (m s))) /\
    traceOf (bind m f s) = traceOf (m s) ++ traceOf (f a (stateOf (m s))).
Proof.
  intros Hok.
  destruct (bind_cases m f s) as [(a & Hr & Hb) | (h & Hr & Hb)];
    rewrite Hb in Hok |- *.
  - exists a. rewrite resultOf_mk in Hok.
    now rewrite stateOf_run, traceOf_mk.
  - rewrite resultOf_mk in Hok. discriminate.
Qed.

Lemma procedure_globals e f s :
  skippedTab (stateOf (procedure e f s)) = skippedTab s /\
  oneColumnTable (stateOf (procedure e f s)) = oneColumnTable s.
Proof.
  unfold stateOf, procedure. now destruct (f (world s)) as [[why|] w].
Qed.

Lemma skipTablesWarning_run (s : St) :
  skipTablesWarning s = (Ok tt, s, skipWarning (skippedTab s)).
Proof.
  unfold skipTablesWarning, skipWarning, bind, getSkippedTab. simpl.
  now destruct (0 <? length (skippedTab s))%nat.
Qed.

Lemma Backup_complete (tcs : list TableCollection) (s : St) :
  let out := BackupConstraintsAndStartDataLoading tcs s in
  resultOf out = Ok tt ->
  exists s1,
    skippedTab s1 = skippedTab s /\
    oneColumnTable s1 = oneColumnTable s /\
    resultOf (loadTables tcs s1) = Ok tt /\
    skippedTab (stateOf out) = skippedTab (stateOf (loadTables tcs s1)) /\
    oneColumnTable (stateOf out) = oneColumnTable s /\
    traceOf out
    = [EvBackupDDL;
       EvLog LInfo "Total numbers of tables to mock: %d"
         [AInt (Z.of_nat (length tcs))]]
        ++ traceOf (loadTables tcs s1)
        ++ flat_map loaderEvents (oneColumnTable s)
        ++ skipWarning (skippedTab (stateOf out))
        ++ [EvLog LInfo "Completed loading mock data to %d tables"
              [AInt (Z.of_nat (length tcs))]].
Proof.
  cbv zeta. unfold BackupConstraintsAndStartDataLoading. intros Hok.
  apply bind_ok_inv in Hok. destruct Hok as ([] & _ & Hok & -> & ->).
  rewrite procedure_trace.
  destruct (procedure_globals EvBackupDDL (BackupDDL E) s) as [Hsk1 Hone1].
  set (s1 := stateOf (procedure EvBackupDDL (BackupDDL E) s)) in *.
  apply bind_ok_inv in Hok. destruct Hok as ([] & _ & Hok & -> & ->).
  change (stateOf (Infof "Total numbers of tables to mock: %d"
                     [AInt (Z.of_nat (length tcs))] s1)) with s1 in *.
  apply bind_ok_inv in Hok. destruct Hok as ([] & Hload & Hok & -> & ->).
  pose proof (loadTables_oneColumnTable tcs s1) as Hone2.
  set (s2 := stateOf (loadTables tcs s1)) in *.
  apply bind_ok_inv in Hok. destruct Hok as ([] & Hadd & Hok & -> & ->).
  destruct (addData_spec s2)
    as (Hsk3 & Hone3 & [[_ Htr3] | (done & t & rest & k & err & _ & _ & Hr & _)]);
    [| rewrite Hadd in Hr; discriminate].
  rewrite Htr3.
  set (s3 := stateOf (addDataIfItsASerialDatatype s2)) in *.
  rewrite bind_ok with (a := tt) by now rewrite skipTablesWarning_run.
  rewrite stateOf_run, traceOf_mk.
  rewrite !skipTablesWarning_run, !stateOf_run, !traceOf_mk.
  exists s1. unfold Infof, logf. rewrite !stateOf_run, !traceOf_mk.
  split; [exact Hsk1|]. split; [exact Hone1|]. split; [exact Hload|].
  split; [exact Hsk3|]. split; [congruence|].
  replace (oneColumnTable s2) with (oneColumnTable s) by congruence.
  reflexivity.
Qed.

Lemma emits_loading Q (tcs : list TableCollection) :
  (forall e, isConfirm e = false -> isFix e = false -> Q e = true) ->
  emits Q (BackupConstraintsAndStartDataLoading tcs).
Proof.
  intros HQ. unfold BackupConstraintsAndStartDataLoading.
  apply emits_bind; [apply emits_procedure; now apply HQ|]. intros _.
  apply emits_bind; [apply emits_logf; now apply HQ|]. intros _.
  apply emits_bind.
  { unfold loadTables. apply emits_forEach. intros t. unfold loadTable.
    apply emits_bind; [apply emits_procedure; now apply HQ|]. intros _.
    apply emits_CommitData; intros; now apply HQ. }
  intros _.
  apply emits_bind; [apply emits_addData; intros; now apply HQ|]. intros _.
  apply emits_bind; [apply emits_skipTablesWarning; intros; now apply HQ|].
  intros _. apply emits_logf; now apply HQ.
Qed.

Lemma loadTables_no_warning (tcs : list TableCollection) (s : St) :
  forallb (fun a => negb (isWarn a)) (traceOf (loadTables tcs s)) = true.
Proof.
  revert s. unfold loadTables. apply emits_forEach. intros t s.
  destruct (loadTable_spec t s)
    as [_ [(why & _ & [Ht|Ht] & _) | (rows & e & Ht & _ & _)]];
    rewrite Ht; try reflexivity.
  rewrite !forallb_app. simpl.
  assert (Hrows : forallb (fun a => negb (isWarn a))
                    (flat_map (rowEvents (tabName (Tbl t)) (Columns t)) rows) = true)
    by (apply rows_all; reflexivity).
  unfold loadTrace. rewrite forallb_app, Hrows. simpl.
  destruct e; simpl; unfold skipLog, copyEvent;
    rewrite ?forallb_app; simpl;
    rewrite ?okBuilds_all by reflexivity; reflexivity.
Qed.

Lemma loaderEvents_no_warning (tabs : list string) :
  forallb (fun a => negb (isWarn a)) (flat_map loaderEvents tabs) = true.
Proof.
  induction tabs as [|t tabs IH]; simpl; [reflexivity|].
  rewrite forallb_app, IH. unfold inserts.
  induction (Z.to_nat (Rows (cmdOptions cfg))) as [|n IHn]; simpl; auto.
Qed.

Lemma executes_loaderEvents (tabs : list string) :
  filter isExecute (flat_map loaderEvents tabs) = flat_map inserts tabs.
Proof.
  induction tabs as [|t tabs IH]; simpl; [reflexivity|].
  rewrite filter_app, IH. f_equal. unfold inserts.
  induction (Z.to_nat (Rows (cmdOptions cfg))) as [|n IHn]; simpl;
    [reflexivity | now rewrite IHn].
Qed.

(** X10. When the loading phase returns, the skipped tables are reported
    once, at its end: its last log line is the completion message, whose
    count is the number of table collections it was given, skipped ones
    included; right before it comes the one warning that lists every name
    in [skippedTab], present exactly when that list is not empty; no other
    warning is logged. *)
Theorem Backup_reports_skips_at_the_end (tcs : list TableCollection) (s : St) :
  let out := BackupConstraintsAndStartDataLoading tcs s in
  resultOf out = Ok tt ->
  exists pre,
    forallb (fun a => negb (isWarn a)) pre = true /\
    traceOf out
    = pre
        ++ (if (0 <? length (skippedTab (stateOf out)))%nat then
              [EvLog LWarn
                 "These tables are skipped since these data types are not supported by %s: %s"
                 [AStr (programName cfg);
                  AStr (Join (skippedTab (stateOf out)) ",")]]
            else [])
        ++ [EvLog LInfo "Completed loading mock data to %d tables"
              [AInt (Z.of_nat (length tcs))]].
Proof.
  cbv zeta. intros Hok.
  destruct (Backup_complete tcs s Hok) as (s1 & _ & _ & _ & _ & _ & Ht).
  exists ([EvBackupDDL;
           EvLog LInfo "Total numbers of tables to mock: %d"
             [AInt (Z.of_nat (length tcs))]]
            ++ traceOf (loadTables tcs s1)
            ++ flat_map loaderEvents (oneColumnTable s)).
  split.
  - rewrite !forallb_app, loadTables_no_warning, loaderEvents_no_warning.
    reflexivity.
  - rewrite Ht. unfold skipWarning. now rewrite <- !app_assoc.
Qed.

Lemma classified_nonempty (tables : list DBTables) :
  (exists t, In t tables /\ hasKeptColumn t = true) ->
  flat_map classified tables <> [].
Proof.
  intros (t & Ht & Hk) Hnil.
  assert (Hin : In t (filter hasKeptColumn tables))
    by (apply filter_In; auto).
  rewrite <- map_Tbl_classified, Hnil in Hin. contradiction.
Qed.

Lemma classified_empty (tables : list DBTables) :
  forallb (fun t => negb (hasKeptColumn t)) tables = true ->
  flat_map classified tables = [].
Proof.
  intros H.
  assert (Hf : filter hasKeptColumn tables = []).
  { induction tables as [|t ts IH]; simpl in *; [reflexivity|].
    apply andb_true_iff in H. destruct H as [Ht Hts].
    apply negb_true_iff in Ht. rewrite Ht. auto. }
  rewrite <- map_Tbl_classified in Hf.
  now destruct (flat_map classified tables).
Qed.

Lemma tableMocker_complete (tables : list DBTables) (s : St) :
  resultOf (tableMocker tables s) = Ok tt ->
  flat_map classified tables <> [] ->
  filter isExecute (traceOf (tableMocker tables s))
  = flat_map inserts (oneColumnTable s ++ flat_map registered tables).
Proof.
  unfold tableMocker. intros Hok Hne.
  apply bind_ok_inv in Hok. destruct Hok as ([] & _ & Hok & _ & ->).
  change (stateOf (Infof "Beginning the mocking process for the tables" [] s))
    with s in *.
  apply bind_ok_inv in Hok. destruct Hok as ([] & _ & Hok & _ & ->).
  set (confirm := if negb (DontPrompt (cmdOptions cfg))
                  then procedure EvConfirm (YesOrNoConfirmation E)
                  else ret tt) in *.
  assert (Hc : oneColumnTable (stateOf (confirm s)) = oneColumnTable s /\
               filter isExecute (traceOf (confirm s)) = []).
  { unfold confirm. destruct (negb _).
    - rewrite procedure_trace.
      split; [apply procedure_globals | reflexivity].
    - split; reflexivity. }
  destruct Hc as [Hone Hcx].
  apply bind_ok_inv in Hok. destruct Hok as (columns & Hcols & Hok & _ & ->).
  rewrite columnExtractor_run in Hcols, Hok |- *.
  rewrite resultOf_mk in Hcols. inversion Hcols; subst columns.
  rewrite stateOf_run in Hok |- *. rewrite traceOf_mk.
  destruct (flat_map classified tables) as [|tc tcs] eqn:Hcl; [congruence|].
  change (0 <? length (tc :: tcs))%nat with true in Hok |- *. cbv iota in Hok |- *.
  destruct (Backup_complete _ _ Hok) as (s1 & _ & _ & _ & _ & _ & Ht).
  rewrite Ht. simpl oneColumnTable.
  rewrite !filter_app, Hcx, executes_loaderEvents.
  rewrite (filter_none isExecute (traceOf (loadTables (tc :: tcs) s1)))
    by (apply emits_loadTables; intros e _ _ He; now rewrite He).
  assert (Hlogs : filter isExecute
                    (EvLog LInfo "Extracting the columns and data type information" []
                       :: flat_map checkLog tables) = []).
  { apply filter_none.
    pose proof (emits_columnExtractor (fun a => negb (isExecute a)) tables
                  (fun _ _ _ => eq_refl) s) as H.
    now rewrite columnExtractor_run, traceOf_mk in H. }
  rewrite Hlogs, Hone. unfold skipWarning.
  destruct (0 <? length _)%nat; simpl; now rewrite ?app_nil_r.
Qed.

(** X11. In a run of [MockTable] that returns and in which some listed
    table has a column that is not sequence-backed, every sequence-only
    table gets exactly the configured number of insertions: the insertions
    of the run are those of the names that were in [oneColumnTable] before
    followed by those of the single-column sequence-backed tables of the
    input, in order, the configured number each, all successful. *)
Theorem MockTable_complete_run_inserts (tables : list DBTables) (s : St) :
  (exists t, In t tables /\ hasKeptColumn t = true) ->
  resultOf (MockTable tables s) = Ok tt ->
  filter isExecute (traceOf (MockTable tables s))
  = flat_map
      (fun t => repeat (EvExecuteDB ("INSERT INTO " @@ t @@ " default values;") None)
                  (Z.to_nat (Rows (cmdOptions cfg))))
      (oneColumnTable s ++ flat_map registered tables).
Proof.
  intros Hkept Hok.
  pose proof (classified_nonempty tables Hkept) as Hne.
  destruct tables as [|t0 ts]; [now destruct Hkept as (t & [] & _)|].
  rewrite MockTable_cons in Hok |- *. cbv zeta in Hok |- *.
  rewrite resultOf_mk in Hok. rewrite traceOf_mk.
  apply bind_ok_inv in Hok. destruct Hok as ([] & Hm & _ & _ & ->).
  cbn [filter isExecute]. rewrite filter_app.
  rewrite (tableMocker_complete _ _ Hm Hne).
  match goal with
  | |- _ ++ filter isExecute (traceOf ?x) = _ =>
      assert (Hfix : filter isExecute (traceOf x) = [])
  end.
  { destruct (negb _); [rewrite procedure_trace|]; reflexivity. }
  rewrite Hfix, app_nil_r. reflexivity.
Qed.

(** X12. When no listed table has a column that is not sequence-backed, a
    run of [MockTable] does nothing to the database: no DDL backup, no
    removal of constraints, no session, no generator call, no copy and no
    insertion.  Its events are log lines, the confirmation prompt and, at
    the end, the call that restores constraints, which is still made when
    the list is not empty, restoration is not disabled and the run
    returns. *)
Theorem MockTable_without_collections_is_quiet (tables : list DBTables) (s : St) :
  forallb (fun t => negb (hasKeptColumn t)) tables = true ->
  forallb isQuiet (traceOf (MockTable tables s)) = true /\
  (tables <> [] -> IgnoreConstraint (cmdOptions cfg) = false ->
   resultOf (MockTable tables s) = Ok tt ->
   exists pre, traceOf (MockTable tables s) = pre ++ [EvFixConstraints]).
Proof.
  intros Hnone. apply classified_empty in Hnone. split.
  - set (Q := fun tr => forallb isQuiet tr = true).
    assert (Happ : forall a b, Q a -> Q b -> Q (a ++ b)).
    { unfold Q. intros a b Ha Hb. now rewrite forallb_app, Ha, Hb. }
    change (Q (traceOf (MockTable tables s))).
    unfold MockTable. destruct (0 <? length tables)%nat; [|reflexivity].
    apply bind_trace; auto; [reflexivity|]. intros _ _.
    apply bind_trace; auto.
    + unfold tableMocker.
      apply bind_trace; auto; [reflexivity|]. intros _ _.
      apply bind_trace; auto.
      { destruct (negb _); [rewrite procedure_trace|]; reflexivity. }
      intros _ _. apply bind_trace; auto.
      { apply emits_columnExtractor. reflexivity. }
      intros columns Hcols. rewrite columnExtractor_run in Hcols.
      rewrite resultOf_mk in Hcols. inversion Hcols; subst columns.
      rewrite Hnone. reflexivity.
    + intros _ _. destruct (negb _); [rewrite procedure_trace|]; reflexivity.
  - intros Hne Hig Hok.
    destruct (MockTable_shape tables s)
      as (tr0 & _ & _ & _ & [(_ & [Hnil | [Htrue | (h & Hh)]]) | (Ht & _)]);
      try congruence.
    exists tr0. exact Ht.
Qed.

(** X13. The operator is asked for confirmation exactly when the table
    list is not empty and prompting is not switched off, and then once,
    as the first thing after the two opening log lines: before
    classification and before anything is asked of the database. *)
Theorem confirmation_comes_first (tables : list DBTables) (s : St) :
  let tr := traceOf (MockTable tables s) in
  (tables <> [] -> DontPrompt (cmdOptions cfg) = false ->
   exists rest,
     tr = EvLog LDebug "Total number of tables to mock: %d"
            [AInt (Z.of_nat (length tables))]
          :: EvLog LInfo "Beginning the mocking process for the tables" []
          :: EvConfirm :: rest /\
     ~ In EvConfirm rest) /\
  (tables = [] \/ DontPrompt (cmdOptions cfg) = true -> ~ In EvConfirm tr).
Proof.
  cbv zeta.
  assert (Hrest : forall s',
            forallb (fun a => negb (isConfirm a))
              (traceOf
                 ((columns <- columnExtractor tables ;;
                   if (0 <? length columns)%nat
                   then BackupConstraintsAndStartDataLoading columns
                   else Warnf "No columns available to mock the data, closing the program" [])
                    s')) = true).
  { apply emits_bind.
    - apply emits_columnExtractor. reflexivity.
    - intros columns. destruct (0 <? length columns)%nat.
      + apply emits_loading. intros e He _. now rewrite He.
      + apply emits_logf. reflexivity. }
  assert (Hfix : forall s',
            forallb (fun a => negb (isConfirm a))
              (traceOf
                 ((if negb (IgnoreConstraint (cmdOptions cfg))
                   then procedure EvFixConstraints (FixConstraints E)
                   else ret tt) s')) = true).
  { intros s'. destruct (negb _); [rewrite procedure_trace|]; reflexivity. }
  split.
  - intros Hne Hprompt. destruct tables as [|t0 ts]; [congruence|].
    rewrite MockTable_cons. cbv zeta. rewrite traceOf_mk.
    set (tables := t0 :: ts) in *.
    match goal with
    | |- context [bind (tableMocker tables) ?f s] =>
        assert (Hin : exists rest,
                  traceOf (bind (tableMocker tables) f s)
                  = EvLog LInfo "Beginning the mocking process for the tables" []
                    :: EvConfirm :: rest /\
                  forallb (fun a => negb (isConfirm a)) rest = true)
    end.
    { assert (Hm : exists rest,
                traceOf (tableMocker tables s)
                = EvLog LInfo "Beginning the mocking process for the tables" []
                  :: EvConfirm :: rest /\
                forallb (fun a => negb (isConfirm a)) rest = true).
      { unfold tableMocker. rewrite Hprompt. cbn [negb].
        rewrite (bind_ok (Infof "Beginning the mocking process for the tables" [])
                   _ s tt eq_refl).
        rewrite traceOf_mk.
        change (traceOf (Infof "Beginning the mocking process for the tables" [] s))
          with [EvLog LInfo "Beginning the mocking process for the tables" []].
        match goal with
        | |- context [bind (procedure EvConfirm ?p) ?g ?s0] =>
            destruct (bind_cases (procedure EvConfirm p) g s0)
              as [(a & _ & ->) | (h & _ & ->)]
        end; rewrite traceOf_mk, procedure_trace.
        - eexists. split; [reflexivity|]. apply Hrest.
        - exists []. split; reflexivity. }
      destruct Hm as (rest & Hm & Hrest').
      match goal with
      | |- context [bind (tableMocker tables) ?f s] =>
          destruct (bind_cases (tableMocker tables) f s)
            as [(a & _ & ->) | (h & _ & ->)]
      end; rewrite traceOf_mk, Hm.
      - eexists. split; [reflexivity|].
        rewrite forallb_app, Hrest'. apply Hfix.
      - exists rest. auto. }
    destruct Hin as (rest & -> & Hnc). exists rest. split; [reflexivity|].
    now apply (not_in_of_forallb isConfirm).
  - intros Hor. apply (not_in_of_forallb isConfirm); [|reflexivity].
    unfold MockTable. destruct tables as [|t0 ts]; [reflexivity|].
    destruct Hor as [Hnil | Hoff]; [discriminate|].
    change (0 <? length (t0 :: ts))%nat with true. cbv iota.
    apply emits_bind; [apply emits_logf; reflexivity|]. intros _.
    apply emits_bind; [|intros _ s'; apply Hfix].
    unfold tableMocker. rewrite Hoff. cbn [negb].
    apply emits_bind; [apply emits_logf; reflexivity|]. intros _.
    apply emits_bind; [apply emits_ret|]. intros _ s'. apply Hrest.
Qed.

(** *** When a table is skipped *)

Lemma app_one_neq {A} (l : list A) (x : A) : l ++ [x] <> l.
Proof.
  intros H. apply (f_equal (@length A)) in H. rewrite length_app in H.
  simpl in H. lia.
Qed.

(** X5. A table load appends the table's name to [skippedTab] exactly when
    one of its generator calls returned an unsupported-datatype error;
    otherwise it leaves [skippedTab] as it was.  A skip is never silent:
    the failed call is for the datatype of a column of the collection and
    is followed by the log line that names the table, that column, its
    datatype and the error. *)
Theorem CommitData_skips_iff_unsupported (t : TableCollection) (s : St) :
  let tab := tabName (Tbl t) in
  let out := CommitData t s in
  (skippedTab (stateOf out) = skippedTab s \/
   skippedTab (stateOf out) = skippedTab s ++ [tab]) /\
  ((exists dt err,
       In (EvBuildData dt (inr err)) (traceOf out) /\
       HasPrefix err unsupportedPrefix = true) <->
   skippedTab (stateOf out) = skippedTab s ++ [tab]) /\
  (forall dt err,
     In (EvBuildData dt (inr err)) (traceOf out) ->
     HasPrefix err unsupportedPrefix = true ->
     exists c,
       In c (Columns t) /\ dt = Datatype c /\
       In (EvLog LDebug
             "Table %s skipped, since the column %s, had unknown data type %s: %v"
             [AStr tab; AStr (Column c); AStr dt; AStr err])
          (traceOf out)).
Proof.
  cbv zeta.
  assert (Hfail : forall dt err,
            In (EvBuildData dt (inr err)) (traceOf (CommitData t s)) ->
            HasPrefix err unsupportedPrefix = true ->
            skippedTab (stateOf (CommitData t s))
            = skippedTab s ++ [tabName (Tbl t)] /\
            exists c,
              In c (Columns t) /\ dt = Datatype c /\
              In (skipLog (tabName (Tbl t)) c err) (traceOf (CommitData t s))).
  { intros dt err Hin Hp. apply in_split in Hin.
    destruct Hin as (pre & post & Heq).
    destruct (CommitData_spec t s)
      as [_ [(why & _ & Ht & _) | (rows & e & Ht & _ & Hend)]].
    - exfalso. rewrite Ht in Heq.
      eapply (no_split isFailedBuild); [exact Heq| |]; reflexivity.
    - rewrite Ht in Heq |- *.
      apply failedBuild_in_loadTrace in Heq;
        [| reflexivity | now destruct e].
      destruct Heq as (vs & c & -> & _ & [[-> _] | [-> _]]);
        simpl in Hend.
      + destruct Hend as (_ & _ & Hn & _ & Hsk). split; [exact Hsk|].
        exists c. split; [eapply nth_error_In; eauto|]. split; [reflexivity|].
        unfold loadTrace. simpl. right; right.
        apply in_or_app. left. apply in_or_app. right.
        apply in_or_app. right. right. now left.
      + destruct Hend as (_ & _ & _ & Hp' & _). congruence. }
  split; [|split].
  - destruct (CommitData_spec t s)
      as [_ [(why & _ & _ & Hs) | (rows & e & _ & _ & Hend)]]; auto.
    destruct e; simpl in Hend; tauto.
  - split.
    + intros (dt & err & Hin & Hp). exact (proj1 (Hfail dt err Hin Hp)).
    + intros Hsk.
      destruct (CommitData_spec t s)
        as [_ [(why & _ & _ & Hs) | (rows & e & Ht & _ & Hend)]].
      * rewrite Hs in Hsk. symmetry in Hsk. now apply app_one_neq in Hsk.
      * assert (Hsame : skippedTab (stateOf (CommitData t s)) = skippedTab s ->
                        False).
        { intros Hs. rewrite Hs in Hsk. symmetry in Hsk.
          now apply app_one_neq in Hsk. }
        destruct e as [|vs c er|vs c er|vs er]; simpl in Hend.
        -- exfalso. apply Hsame. tauto.
        -- destruct Hend as (_ & _ & _ & Hp & _).
           exists (Datatype c), er. split; [|exact Hp].
           rewrite Ht. unfold loadTrace. simpl. right; right.
           apply in_or_app. left. apply in_or_app. right.
           apply in_or_app. right. now left.
        -- exfalso. apply Hsame. tauto.
        -- exfalso. apply Hsame. tauto.
  - intros dt err Hin Hp. destruct (Hfail dt err Hin Hp) as [_ (c & Hc & -> & Hl)].
    exists c. auto.
Qed.

End Worker.

Arguments resultOf {E A} x.
Arguments stateOf {E A} x.
Arguments traceOf {E A} x.
Arguments world {E} s.
Arguments skippedTab {E} s.
Arguments oneColumnTable {E} s.

(** ** Classification run twice *)

Lemma classified_same (E1 E2 : Externals) (cfg1 cfg2 : Config)
    (tables : list DBTables) :
  (forall t, In t tables -> extractColumns E1 cfg1 t = extractColumns E2 cfg2 t) ->
  flat_map (classified E1 cfg1) tables = flat_map (classified E2 cfg2) tables.
Proof.
  induction tables as [|t ts IH]; intros Hsame; simpl; [reflexivity|].
  rewrite IH by (intros t' Ht'; apply Hsame; now right).
  f_equal. unfold classified, keptColumns. rewrite Hsame; [reflexivity|].
  now left.
Qed.

(** C3, as the code has it.  What classification returns is a function of
    the column descriptors of the listed tables: two runs that see the same
    descriptors return the same TableCollections, whatever the collaborators
    and the state they start from.  A second run returns the same
    TableCollections as the first and leaves the same names in
    [oneColumnTable], but it appends each of them once more to that
    package-level list; the world and [skippedTab] are left alone. *)
Theorem C3_classification_twice
    (E1 E2 : Externals) (cfg1 cfg2 : Config) (tables : list DBTables)
    (s1 : St E1) (s2 : St E2) :
  (forall t, In t tables -> extractColumns E1 cfg1 t = extractColumns E2 cfg2 t) ->
  let run1 := columnExtractor E1 cfg1 tables s1 in
  let run2 := columnExtractor E1 cfg1 tables (stateOf run1) in
  resultOf run1 = resultOf (columnExtractor E2 cfg2 tables s2) /\
  resultOf run2 = resultOf run1 /\
  (forall x, In x (oneColumnTable (stateOf run2)) <->
             In x (oneColumnTable (stateOf run1))) /\
  oneColumnTable (stateOf run2)
  = oneColumnTable (stateOf run1) ++ flat_map (registered E1 cfg1) tables /\
  world (stateOf run2) = world s1 /\
  skippedTab (stateOf run2) = skippedTab s1.
Proof.
  intros Hsame. cbv zeta.
  destruct (columnExtractor_twice E1 cfg1 tables s1)
    as (Hr1 & Hr2 & _ & Ho2 & Hmem & Hw & Hsk).
  split; [|tauto].
  rewrite Hr1, (columnExtractor_run E2 cfg2 tables s2).
  unfold resultOf. simpl. f_equal. now apply classified_same.
Qed.

(** ** The program on the sample database *)

(** C2. A run over the single table [counter], whose only column is
    sequence-backed, with five rows requested: classification returns no
    TableCollection and registers [counter] in [oneColumnTable], but the run
    ends without a single insertion.  [tableMocker] calls
    [BackupConstraintsAndStartDataLoading], the only caller of the loader of
    sequence-only tables, only when some TableCollection exists.  The loader
    itself, started in the state the run left, issues the five insertions. *)
Theorem C2_sequence_only_run_inserts_nothing :
  let cfg := sampleCfg 5 in
  let run := MockTable sampleE cfg [counter] (startSt sampleE 0) in
  extractColumns sampleE cfg counter
  = [mkDBColumns "id" "integer" "nextval('counter_id_seq'::regclass)"] /\
  resultOf (columnExtractor sampleE cfg [counter] (startSt sampleE 0)) = Ok [] /\
  oneColumnTable (stateOf run) = [tabName counter] /\
  resultOf run = Ok tt /\
  filter isExecute (traceOf run) = [] /\
  filter isExecute
    (traceOf (addDataIfItsASerialDatatype sampleE cfg (stateOf run)))
  = repeat (EvExecuteDB (insertQuery (tabName counter)) None) 5.
Proof. cbv zeta. repeat split; vm_compute; reflexivity. Qed.

(** C3 fails as stated: after a second classification of the single table
    [counter] the list [oneColumnTable] holds its name twice, the state
    differs from the one after the first run, and the loader of
    sequence-only tables would insert ten rows instead of five. *)
Lemma C3_counterexample :
  let cfg := sampleCfg 5 in
  let run1 := columnExtractor sampleE cfg [counter] (startSt sampleE 0) in
  let run2 := columnExtractor sampleE cfg [counter] (stateOf run1) in
  oneColumnTable (stateOf run1) = [tabName counter] /\
  oneColumnTable (stateOf run2) = [tabName counter; tabName counter] /\
  stateOf run2 <> stateOf run1 /\
  length (filter isExecute
            (traceOf (addDataIfItsASerialDatatype sampleE cfg (stateOf run1))))
  = 5%nat /\
  length (filter isExecute
            (traceOf (addDataIfItsASerialDatatype sampleE cfg (stateOf run2))))
  = 10%nat.
Proof.
  cbv zeta. repeat split; try (vm_compute; reflexivity).
  intros H. apply (f_equal oneColumnTable) in H. vm_compute in H.
  discriminate H.
Qed.

(** C6 fails as stated: loading two rows of two columns hands the transport
    two payloads, one per row, not one stream of the four values. *)
Lemma C6_counterexample :
  let tr := traceOf (CommitData sampleE (sampleCfg 2) usersTC (startSt sampleE 0)) in
  generated tr = ["v"; "v"; "v"; "v"] /\
  payloads tr = ["v$v"; "v$v"] /\
  payloads tr <> [Join (generated tr) delimiter] /\
  length (filter isCopy tr) = 2%nat.
Proof.
  cbv zeta. repeat split; try (vm_compute; reflexivity).
  intros H. vm_compute in H. discriminate H.
Qed.

(** C8 fails as stated: with restoration not disabled, a run over an empty
    table list restores nothing, and a run that a failed copy ends has
    removed the constraints of the table and never restores them. *)
Lemma C8_counterexample :
  let cfg := sampleCfg 3 in
  let empty := MockTable sampleE cfg [] (startSt sampleE 0) in
  let failed := MockTable sampleE cfg [blobs] (startSt sampleE 0) in
  IgnoreConstraint (cmdOptions cfg) = false /\
  resultOf empty = Ok tt /\
  filter isFix (traceOf empty) = [] /\
  In (EvRemoveConstraints (tabName blobs)) (traceOf failed) /\
  resultOf failed
  = Halt (HFatalf "Error during committing data: %v" [AStr "connection reset"]) /\
  filter isFix (traceOf failed) = [].
Proof.
  cbv zeta. repeat split; try (vm_compute; reflexivity).
  vm_compute. do 6 right. left. reflexivity.
Qed.

(** ** The theorems at work on the sample database *)

Lemma C1_witness :
  let out := loadTable sampleE (sampleCfg 5) eventsTC (startSt sampleE 0) in
  skippedTab (stateOf out) = [tabName events] /\
  resultOf out = Ok tt /\
  length (filter isCopy (traceOf out)) = 2%nat.
Proof.
  cbv zeta.
  destruct (C1_unsupported_datatype_skips_the_table sampleE (sampleCfg 5)
              eventsTC (startSt sampleE 0) 2 0
              (firstn 7 (traceOf (loadTable sampleE (sampleCfg 5) eventsTC
                                    (startSt sampleE 0))))
              "flaky" "unsupported datatypes found: flaky"
              (skipn 8 (traceOf (loadTable sampleE (sampleCfg 5) eventsTC
                                   (startSt sampleE 0)))))
    as ((rows & Hlen & _ & Hcopies) & _ & Hsk & Hr & _).
  - reflexivity.
  - reflexivity.
  - reflexivity.
  - apply Nat.lt_0_1.
  - split; [exact Hsk|]. split; [exact Hr|].
    rewrite Hcopies, length_map. exact Hlen.
Defined.

Lemma C3_witness :
  resultOf (columnExtractor sampleE (sampleCfg 5) [counter; users]
              (startSt sampleE 0))
  = resultOf (columnExtractor sampleE
                (mkConfig (mkOptions 1 true false) "greenplum" "mockd")
                [counter; users] (startSt sampleE 7)).
Proof.
  apply (C3_classification_twice sampleE sampleE (sampleCfg 5)
           (mkConfig (mkOptions 1 true false) "greenplum" "mockd")
           [counter; users] (startSt sampleE 0) (startSt sampleE 7)).
  intros t Ht. reflexivity.
Defined.

Lemma C4_witness :
  exists collection,
    resultOf (columnExtractor sampleE (sampleCfg 3) [users; counter; pairs]
                (startSt sampleE 0)) = Ok collection /\
    forall tc, In tc collection ->
               forall c, In c (Columns tc) -> isItSerialDatatype c = false.
Proof.
  destruct (C4_sequence_backed_columns_are_left_out sampleE (sampleCfg 3)
              [users; counter; pairs] (startSt sampleE 0))
    as (_ & _ & _ & collection & Hr & Hin & _).
  exists collection. split; [exact Hr|].
  intros tc Htc. exact (proj1 (proj2 (Hin tc Htc))).
Defined.

Lemma C5_witness :
  ~ In (tabName pairs)
       (oneColumnTable
          (stateOf (columnExtractor sampleE (sampleCfg 3) [counter; pairs]
                      (startSt sampleE 0)))).
Proof.
  destruct (C5_sequence_only_tables sampleE (sampleCfg 3) [counter; pairs]
              (startSt sampleE 0) pairs (or_intror (or_introl eq_refl)))
    as (collection & _ & _ & Hb).
  apply Hb.
  - discriminate.
  - reflexivity.
  - intros [].
  - intros t' [<-|[<-|[]]] Hname.
    + vm_compute in Hname. discriminate Hname.
    + reflexivity.
Defined.

Lemma C6_witness :
  exists rows partial,
    Forall (fun vs => length vs = 2%nat) rows /\
    (partial = [] \/ (length partial < 2)%nat) /\
    generated (traceOf (CommitData sampleE (sampleCfg 2) usersTC (startSt sampleE 0)))
    = concat rows ++ partial /\
    payloads (traceOf (CommitData sampleE (sampleCfg 2) usersTC (startSt sampleE 0)))
    = map (fun vs => Join vs delimiter) rows.
Proof.
  exact (proj2 (C6_one_payload_per_row sampleE (sampleCfg 2) usersTC
                  (startSt sampleE 0))).
Defined.

Lemma C7_witness :
  Z.of_nat (length (filter isCopy
     (traceOf (CommitData sampleE (sampleCfg 2) usersTC (startSt sampleE 0)))))
  = 2%Z.
Proof.
  destruct (C7_successful_load_commits_row_count sampleE (sampleCfg 2) usersTC
              (startSt sampleE 0)) as (rows & _ & _ & H).
  - discriminate.
  - reflexivity.
  - intros dt err Hin. vm_compute in Hin.
    repeat (destruct Hin as [Hin|Hin]; [discriminate Hin|]). exact Hin.
  - exact H.
Defined.

Lemma C8_witness :
  In EvFixConstraints
     (traceOf (MockTable sampleE (sampleCfg 2) [users; counter]
                 (startSt sampleE 0))).
Proof.
  apply (C8_constraint_life_cycle sampleE (sampleCfg 2) [users; counter]
           (startSt sampleE 0)).
  - discriminate.
  - reflexivity.
  - reflexivity.
Defined.

Lemma C9_witness :
  let run := MockTable sampleE (sampleCfg 3) [blobs] (startSt sampleE 0) in
  (exists fmt args, resultOf run = Halt (HFatalf fmt args)) /\
  forallb isLog (skipn 11 (traceOf run)) = true.
Proof.
  cbv zeta.
  apply (C9_fatal_failures_end_the_run sampleE (sampleCfg 3) blobsTC [blobs]
           (startSt sampleE 0)
           (firstn 10 (traceOf (MockTable sampleE (sampleCfg 3) [blobs]
                                  (startSt sampleE 0))))
           (EvCopyFrom "bad"
              (copyStatment (tabName blobs) ["data"]) (Some "connection reset"))
           (skipn 11 (traceOf (MockTable sampleE (sampleCfg 3) [blobs]
                                 (startSt sampleE 0))))).
  - reflexivity.
  - reflexivity.
Defined.

Lemma C10_witness :
  exists pre' vs,
    [startLog (tabName users); EvConnectDB;
     EvBuildData "text" (inl "v"); EvBuildData "integer" (inl "v")]
    = pre' ++ okBuilds (Columns usersTC) vs /\
    length vs = 2%nat /\
    "v$v" = Join vs delimiter /\
    copyStatment (tabName users) ["name"; "age"]
    = copyStatment (tabName users) (map Column (Columns usersTC)).
Proof.
  apply (proj2 (C10_only_complete_rows_are_copied sampleE (sampleCfg 2) usersTC
                  (startSt sampleE 0))
           [startLog (tabName users); EvConnectDB;
            EvBuildData "text" (inl "v"); EvBuildData "integer" (inl "v")]
           "v$v" (copyStatment (tabName users) ["name"; "age"]) None
           (skipn 5 (traceOf (CommitData sampleE (sampleCfg 2) usersTC
                                (startSt sampleE 0))))).
  reflexivity.
Defined.

(** ** Three runs of the whole program *)

(** [orders] has a [geometry] column: it is skipped on its first row with
    nothing copied, [users] after it gets its two rows, and the run ends
    normally with [orders] reported once. *)
Example orders_skipped_users_loaded :
  let run := MockTable sampleE (sampleCfg 2) [orders; users] (startSt sampleE 0) in
  resultOf run = Ok tt /\
  skippedTab (stateOf run) = [tabName orders] /\
  payloads (traceOf run) = ["v$v"; "v$v"] /\
  In (EvLog LWarn
        "These tables are skipped since these data types are not supported by %s: %s"
        [AStr "mockd"; AStr (tabName orders)])
     (traceOf run).
Proof.
  cbv zeta.
  split; [vm_compute; reflexivity|].
  split; [vm_compute; reflexivity|].
  split; [vm_compute; reflexivity|].
  vm_compute. repeat (first [left; reflexivity | right]).
Qed.

(** The generator breaks on [docs]: the run ends there, and [users], next
    in the list, is never touched. *)
Example docs_ends_the_run :
  let run := MockTable sampleE (sampleCfg 2) [docs; users] (startSt sampleE 0) in
  resultOf run
  = Halt (HFatalf "Error when building data for table %s: %v"
            [AStr (tabName docs); AStr "generator out of entropy"]) /\
  ~ In (EvRemoveConstraints (tabName users)) (traceOf run) /\
  payloads (traceOf run) = [].
Proof.
  cbv zeta.
  split; [vm_compute; reflexivity|].
  split; [|vm_compute; reflexivity].
  intros Hin. vm_compute in Hin.
  repeat (destruct Hin as [Hin|Hin]; [discriminate Hin|]). exact Hin.
Qed.

(** An empty table list: one warning and nothing else. *)
Example nothing_to_do :
  MockTable sampleE (sampleCfg 2) [] (startSt sampleE 0)
  = (Ok tt, startSt sampleE 0,
     [EvLog LWarn "No table available to mock the data, closing the program" []]).
Proof. vm_compute. reflexivity. Qed.

(** ** The further properties at work on the sample database *)

Lemma GenerateTableName_injective_witness :
  Table users = Table users /\ Schema users = Schema users.
Proof.
  apply (GenerateTableName_injective (Table users) (Schema users)
           (Table users) (Schema users)); reflexivity.
Defined.

Lemma CommitData_without_rows_witness :
  traceOf (CommitData sampleE (sampleCfg 0) usersTC (startSt sampleE 0))
  = [startLog (tabName users); EvConnectDB; EvCloseDB].
Proof.
  destruct (CommitData_without_rows sampleE (sampleCfg 0) usersTC
              (startSt sampleE 0)) as (_ & _ & _ & [[_ Ht] | (why & Hr & _)]).
  - discriminate.
  - exact Ht.
  - vm_compute in Hr. discriminate Hr.
Defined.

Lemma addData_inserts_rows_witness :
  length
    (traceOf (addDataIfItsASerialDatatype sampleE (sampleCfg 3)
                (mkSt sampleE 0 [] [tabName counter; tabName pairs])))
  = 8%nat.
Proof.
  rewrite (proj1 (addData_inserts_rows sampleE (sampleCfg 3)
                    (mkSt sampleE 0 [] [tabName counter; tabName pairs])
                    eq_refl)).
  reflexivity.
Defined.

Lemma addData_failure_is_fatal_witness :
  exists t,
    In t [tabName counter; tabName pairs] /\
    resultOf (addDataIfItsASerialDatatype fullDiskE (sampleCfg 3)
                (mkSt fullDiskE 0 [] [tabName counter; tabName pairs]))
    = Halt (HFatalf "Error when loading the serial datatype for table %s, err: %v"
              [AStr t; AStr "disk full"]).
Proof.
  destruct (addData_failure_is_fatal fullDiskE (sampleCfg 3)
              (mkSt fullDiskE 0 [] [tabName counter; tabName pairs])
              [loaderLog (tabName counter)]
              (insertQuery (tabName counter)) "disk full" [])
    as (_ & t & Hin & _ & Hr).
  - reflexivity.
  - exists t. split; [exact Hin | exact Hr].
Defined.

Lemma Backup_reports_skips_at_the_end_witness :
  exists pre,
    traceOf (BackupConstraintsAndStartDataLoading sampleE (sampleCfg 3)
               [eventsTC; usersTC] (startSt sampleE 0))
    = pre
        ++ [EvLog LWarn
              "These tables are skipped since these data types are not supported by %s: %s"
              [AStr "mockd"; AStr (tabName events)];
            EvLog LInfo "Completed loading mock data to %d tables" [AInt 2]].
Proof.
  destruct (Backup_reports_skips_at_the_end sampleE (sampleCfg 3)
              [eventsTC; usersTC] (startSt sampleE 0)) as (pre & _ & Ht).
  - vm_compute. reflexivity.
  - exists pre. rewrite Ht. f_equal; vm_compute; reflexivity.
Defined.

Lemma MockTable_complete_run_inserts_witness :
  filter isExecute
    (traceOf (MockTable sampleE (sampleCfg 2) [users; counter; pairs]
                (startSt sampleE 0)))
  = [EvExecuteDB (insertQuery (tabName counter)) None;
     EvExecuteDB (insertQuery (tabName counter)) None].
Proof.
  rewrite (MockTable_complete_run_inserts sampleE (sampleCfg 2)
             [users; counter; pairs] (startSt sampleE 0)).
  - vm_compute. reflexivity.
  - exists users. split; [now left | vm_compute; reflexivity].
  - vm_compute. reflexivity.
Defined.

Lemma MockTable_without_collections_is_quiet_witness :
  forallb isQuiet
    (traceOf (MockTable sampleE (sampleCfg 2) [counter; pairs]
                (startSt sampleE 0))) = true.
Proof.
  apply (MockTable_without_collections_is_quiet sampleE (sampleCfg 2)
           [counter; pairs] (startSt sampleE 0)).
  vm_compute. reflexivity.
Defined.

Lemma confirmation_comes_first_witness :
  exists rest,
    traceOf (MockTable sampleE
               (mkConfig (mkOptions 2 false false) "postgres" "mockd")
               [users] (startSt sampleE 0))
    = EvLog LDebug "Total number of tables to mock: %d" [AInt 1]
      :: EvLog LInfo "Beginning the mocking process for the tables" []
      :: EvConfirm :: rest /\
    ~ In EvConfirm rest.
Proof.
  apply (proj1 (confirmation_comes_first sampleE
                  (mkConfig (mkOptions 2 false false) "postgres" "mockd")
                  [users] (startSt sampleE 0))).
  - discriminate.
  - reflexivity.
Defined.

Lemma columnExtractor_keeps_order_witness :
  exists collection,
    resultOf (columnExtractor sampleE (sampleCfg 2)
                [counter; orders; pairs; users] (startSt sampleE 0))
    = Ok collection /\
    map Tbl collection = [orders; users].
Proof.
  destruct (columnExtractor_keeps_order sampleE (sampleCfg 2)
              [counter; orders; pairs; users] (startSt sampleE 0))
    as (collection & Hr & Hm & _).
  exists collection. split; [exact Hr|]. rewrite Hm. vm_compute. reflexivity.
Defined.

Lemma CommitData_session_witness :
  exists body,
    traceOf (CommitData sampleE (sampleCfg 2) usersTC (startSt sampleE 0))
    = startLog (tabName users) :: EvConnectDB :: body ++ [EvCloseDB] /\
    ~ In EvCloseDB body.
Proof.
  destruct (CommitData_session sampleE (sampleCfg 2) usersTC (startSt sampleE 0))
    as (rest & Ht & _ & Hok & _).
  destruct (Hok eq_refl) as (body & -> & Hno).
  exists body. split; [exact Ht | exact Hno].
Defined.

Lemma CommitData_skips_iff_unsupported_witness :
  skippedTab (stateOf (CommitData sampleE (sampleCfg 3) eventsTC
                         (startSt sampleE 0)))
  = [tabName events].
Proof.
  apply (proj1 (proj1 (proj2 (CommitData_skips_iff_unsupported sampleE
                                (sampleCfg 3) eventsTC (startSt sampleE 0))))).
  exists "flaky", "unsupported datatypes found: flaky". split.
  - vm_compute. repeat (first [left; reflexivity | right]).
  - reflexivity.
Defined.

Lemma loadTables_skips_in_order_witness :
  exists marks,
    length marks = 2%nat /\
    skippedTab (stateOf (loadTables sampleE (sampleCfg 3) [eventsTC; usersTC]
                           (startSt sampleE 0)))
    = markedNames [eventsTC; usersTC] marks.
Proof.
  exact (proj2 (loadTables_skips_in_order sampleE (sampleCfg 3)
                  [eventsTC; usersTC] (startSt sampleE 0))).
Defined.

Lemma loadTables_in_order_witness :
  filter isRemove
    (traceOf (loadTables sampleE (sampleCfg 3) [eventsTC; usersTC]
                (startSt sampleE 0)))
  = [EvRemoveConstraints (tabName events); EvRemoveConstraints (tabName users)].
Proof.
  destruct (loadTables_in_order sampleE (sampleCfg 3) [eventsTC; usersTC]
              (startSt sampleE 0)) as (k & _ & Hf & Hk).
  rewrite Hf, (Hk eq_refl). reflexivity.
Defined.
